(** * WhatsApp bulk sender: the session driver and the manual-entry parsing

    A shallow embedding of [app.py]: the string operations of Python that the
    program relies on, the phone-number heuristics, the template
    personalisation, the CSV loader and the browser-driving operations of
    [WhatsAppBulkSender].

    The browser, the clock and the user are outside the program: a run is a
    function of an environment that answers each command and says when the
    user asks for cancellation, and it records every command, sleep and log
    line in a trace.  Exceptions are results, so that what is caught and
    what escapes can be stated. *)

From Stdlib Require Import String Ascii List Bool Arith ZArith Lia.
Import ListNotations.
Open Scope string_scope.

(** ** Python's [str] operations

    A [str] is modelled as a [string] whose characters are the code points
    below 256; the character classes are Python's on that range. *)
Module PyStr.

(** Characters [c] with [c.isdigit()]: the decimal digits and the
    superscripts U+00B2, U+00B3 and U+00B9. *)
Definition isdigit_char (c : ascii) : bool :=
  let n := nat_of_ascii c in
  (((48 <=? n) && (n <=? 57)) || (n =? 178) || (n =? 179) || (n =? 185))%nat.

(** Characters [c] with [c.isspace()], the ones [split()] and [strip()]
    treat as blank. *)
Definition isspace_char (c : ascii) : bool :=
  let n := nat_of_ascii c in
  (((9 <=? n) && (n <=? 13)) || ((28 <=? n) && (n <=? 32))
   || (n =? 133) || (n =? 160))%nat.

Fixpoint all_chars (p : ascii -> bool) (s : string) : bool :=
  match s with
  | EmptyString => true
  | String c s' => p c && all_chars p s'
  end.

(** [s.isdigit()]: at least one character, and all of them digits. *)
Definition isdigit (s : string) : bool :=
  match s with
  | EmptyString => false
  | String _ _ => all_chars isdigit_char s
  end.

(** [s.startswith(p)] *)
Fixpoint startswith (s p : string) {struct p} : bool :=
  match p with
  | EmptyString => true
  | String a p' =>
      match s with
      | EmptyString => false
      | String b s' => Ascii.eqb b a && startswith s' p'
      end
  end.

(** [sub in s] *)
Fixpoint contains (s sub : string) : bool :=
  startswith s sub
  || match s with
     | EmptyString => false
     | String _ s' => contains s' sub
     end.

(** The scan of [s.replace(old, new)] for a non-empty [old]: leftmost
    occurrences, not overlapping.  [skip] counts the characters of the
    occurrence just replaced that are still to be passed over. *)
Fixpoint replace_from (skip : nat) (old new s : string) : string :=
  match s with
  | EmptyString => EmptyString
  | String c s' =>
      match skip with
      | S k => replace_from k old new s'
      | O =>
          if startswith s old
          then new ++ replace_from (String.length old - 1) old new s'
          else String c (replace_from 0 old new s')
      end
  end.

Fixpoint intersperse (new s : string) : string :=
  match s with
  | EmptyString => EmptyString
  | String c s' => String c (new ++ intersperse new s')
  end.

(** [s.replace(old, new)] *)
Definition replace (s old new : string) : string :=
  match old with
  | EmptyString => new ++ intersperse new s
  | String _ _ => replace_from 0 old new s
  end.

Fixpoint lstrip (s : string) : string :=
  match s with
  | EmptyString => EmptyString
  | String c s' => if isspace_char c then lstrip s' else s
  end.

Fixpoint rstrip (s : string) : string :=
  match s with
  | EmptyString => EmptyString
  | String c s' =>
      match rstrip s' with
      | EmptyString => if isspace_char c then EmptyString else String c EmptyString
      | r => String c r
      end
  end.

(** [s.strip()] *)
Definition strip (s : string) : string := lstrip (rstrip s).

(** The word under construction, emitted when it is not empty. *)
Definition flush (cur : string) : list string :=
  match cur with
  | EmptyString => []
  | String _ _ => [cur]
  end.

(** The maximal runs of characters that are not separators, in order. *)
Fixpoint fields (sep : ascii -> bool) (cur s : string) : list string :=
  match s with
  | EmptyString => flush cur
  | String c s' =>
      if sep c then (flush cur ++ fields sep EmptyString s')%list
      else fields sep (cur ++ String c EmptyString) s'
  end.

(** [s.split()], with no argument: the runs of non-blank characters. *)
Definition split (s : string) : list string :=
  fields isspace_char EmptyString s.

Fixpoint split_on (sep : ascii) (cur s : string) : list string :=
  match s with
  | EmptyString => [cur]
  | String c s' =>
      if Ascii.eqb c sep then cur :: split_on sep EmptyString s'
      else split_on sep (cur ++ String c EmptyString) s'
  end.

(** [s.split(sep)] for a separator of one character: empty pieces are
    kept. *)
Definition split_sep (s : string) (sep : ascii) : list string :=
  split_on sep EmptyString s.

End PyStr.

(** The line feed and the double quote. *)
Definition LF : ascii := "010"%char.
Definition DQUOTE : ascii := "034"%char.

Definition newline : string := String LF EmptyString.

(** [s] between double quotes, as in the XPath literals of the program. *)
Definition quoted (s : string) : string :=
  String DQUOTE (s ++ String DQUOTE EmptyString).

(** ** Contacts and the phone-number heuristics *)

(** A contact is a [dict] from field names to strings (the data model of
    the program: a row of the file, or the [{"name": number}] of the manual
    entry), kept in the order of its [items()]; [str(value)] is then
    [value]. *)
Definition contact : Type := list (string * string).

(** [d[key]], [None] standing for [KeyError]. *)
Fixpoint getitem (d : contact) (key : string) : option string :=
  match d with
  | [] => None
  | (k, v) :: d' => if String.eqb k key then Some v else getitem d' key
  end.

(** [contact.replace('+', '').isdigit()], the test of [search_contact],
    [add_phone] and [add_bulk_phones]. *)
Definition is_phone (contact : string) : bool :=
  PyStr.isdigit (PyStr.replace contact "+" "").

(** The text [search_contact] types for a phone number. *)
Definition formatted_contact (contact : string) : string :=
  if (7 <? String.length contact)%nat && negb (PyStr.startswith contact "+")
  then "+" ++ contact
  else contact.

(** The number [add_phone] and [add_bulk_phones] store. *)
Definition format_phone (phone : string) : string :=
  if negb (PyStr.startswith phone "+") && (7 <? String.length phone)%nat
  then "+" ++ phone
  else phone.

(** ** Personalising the message (the body of [send_bulk_messages]) *)

(** [f'{{{key}}}'] *)
Definition placeholder (key : string) : string := "{" ++ key ++ "}".

(** One turn of [for key, value in contact.items()]. *)
Definition substitute_field (personalized_message : string)
    (item : string * string) : string :=
  let (key, value) := item in
  if negb (String.eqb key "name")
     && PyStr.contains personalized_message (placeholder key)
  then PyStr.replace personalized_message (placeholder key) value
  else personalized_message.

Definition personalize (message contact_name : string) (c : contact)
  : string :=
  let personalized_message :=
    if PyStr.contains message "{name}"
    then PyStr.replace message "{name}" contact_name
    else message in
  fold_left substitute_field c personalized_message.

(** *** What the specification says of a template

    A template read as a sequence of plain text and placeholders, and its
    resolution in one pass: a placeholder whose field the contact has becomes
    that field's value, any other stays as written. *)
Inductive segment : Type :=
| Plain (text : string)
| Field (name : string).

Definition render_segment (g : segment) : string :=
  match g with
  | Plain text => text
  | Field name => placeholder name
  end.

Fixpoint render (t : list segment) : string :=
  match t with
  | [] => EmptyString
  | g :: t' => render_segment g ++ render t'
  end.

Definition resolve_segment (c : contact) (g : segment) : string :=
  match g with
  | Plain text => text
  | Field name =>
      match getitem c name with
      | Some value => value
      | None => placeholder name
      end
  end.

Fixpoint resolve (c : contact) (t : list segment) : string :=
  match t with
  | [] => EmptyString
  | g :: t' => resolve_segment c g ++ resolve c t'
  end.

Definition is_brace (c : ascii) : bool :=
  Ascii.eqb c "{" || Ascii.eqb c "}".

Definition brace_free (s : string) : bool :=
  PyStr.all_chars (fun c => negb (is_brace c)) s.

Definition segment_brace_free (g : segment) : bool :=
  match g with
  | Plain text => brace_free text
  | Field name => brace_free name
  end.

Definition item_brace_free (item : string * string) : bool :=
  brace_free (fst item) && brace_free (snd item).

(** ** Manual entry of phone numbers ([WhatsAppSenderGUI]) *)
Module GUI.

Record state : Type := {
  manual_contacts : list contact;
  phones_listbox : list string
}.

(** [phones_listbox.insert(tk.END, n)] and
    [manual_contacts.append({"name": n})] *)
Definition add_entry (g : state) (number : string) : state :=
  {| manual_contacts := manual_contacts g ++ [[("name", number)]];
     phones_listbox := phones_listbox g ++ [number] |}.

Inductive add_phone_result : Type :=
| NothingEntered
| InvalidInput
| Added.

Definition add_phone (add_phone_var : string) (g : state)
  : state * add_phone_result :=
  let phone := PyStr.strip add_phone_var in
  match phone with
  | EmptyString => (g, NothingEntered)
  | String _ _ =>
      if negb (is_phone phone) then (g, InvalidInput)
      else (add_entry g (format_phone phone), Added)
  end.

(** The variables of the loops of [add_bulk_phones]. *)
Record tally : Type := {
  gui : state;
  added_count : nat;
  invalid_count : nat
}.

(** The body of [for number in potential_numbers]. *)
Definition add_number (t : tally) (number : string) : tally :=
  let clean_number := PyStr.strip number in
  match clean_number with
  | EmptyString => t
  | String _ _ =>
      if negb (is_phone clean_number)
      then {| gui := gui t;
              added_count := added_count t;
              invalid_count := S (invalid_count t) |}
      else {| gui := add_entry (gui t) (format_phone clean_number);
              added_count := S (added_count t);
              invalid_count := invalid_count t |}
  end.

(** The body of [for line in lines]. *)
Definition add_line (t : tally) (line : string) : tally :=
  fold_left add_number (PyStr.split line) t.

(** [add_bulk_phones], on the text of the bulk field; the counts are the
    ones its message boxes show, [None] when it returns at once. *)
Definition add_bulk_phones (bulk_phones_text : string) (g : state)
  : state * option (nat * nat) :=
  let bulk_text := PyStr.strip bulk_phones_text in
  match bulk_text with
  | EmptyString => (g, None)
  | String _ _ =>
      let bulk_text :=
        PyStr.replace (PyStr.replace bulk_text "," newline) ";" newline in
      let lines := PyStr.split_sep bulk_text LF in
      let t := fold_left add_line lines
                 {| gui := g; added_count := 0; invalid_count := 0 |} in
      (gui t, Some (added_count t, invalid_count t))
  end.

(** The separators of the bulk field: commas, semicolons and blanks (the
    line feed is one of the blanks). *)
Definition is_separator (c : ascii) : bool :=
  PyStr.isspace_char c || Ascii.eqb c "," || Ascii.eqb c ";".

(** The candidate numbers of a text: its runs of characters between
    separators. *)
Definition candidates (text : string) : list string :=
  PyStr.fields is_separator EmptyString text.

End GUI.

(** ** The browser session ([WhatsAppBulkSender]) *)

(** The exceptions the program tells apart; all derive from [Exception]. *)
Inductive exn : Type :=
| TimeoutException (msg : string)
| NoSuchElementException (msg : string)
| AttributeError (msg : string)
| KeyError (key : string)
| OtherException (msg : string).

(** A call either returns a value or raises. *)
Inductive outcome (T : Type) : Type :=
| Returns (v : T)
| Raises (e : exn).
Arguments Returns {T} v.
Arguments Raises {T} e.

(** A [WebElement]. *)
Definition element : Type := nat.

(** The argument of [send_keys]: text, or one of the key chords used. *)
Inductive keys : Type :=
| Text (s : string)
| ShiftEnter
| Backspace
| Enter.

(** The commands sent to the browser, indexed by what they return. *)
Inductive command : Type -> Type :=
| WaitPresence (xpath : string) : command element
| FindElements (xpath : string) : command (list element)
| IsDisplayed (e : element) : command bool
| Clear (e : element) : command unit
| SendKeys (e : element) (k : keys) : command unit
| Click (e : element) : command unit
| Get (url : string) : command unit
| Quit : command unit.

(** The lines handed to [log]; each stands for the text the program builds
    from the values it carries:
    - [NoSearchBox]: "Could not find the search box. ..."
    - [SearchingPhone f]: "Searching for phone number: f"
    - [SearchingContact c]: "Searching for contact: c"
    - [CouldNotFindContact c]: "Could not find contact: c"
    - [ErrorSearching c e]: "Error searching for contact c: e"
    - [NoMessageBox]: "Could not find the message input box. ..."
    - [FailedToSend e]: "Failed to send message: e"
    - [NoContacts]: "No contacts found or invalid file format."
    - [SendingMessagesTo n]: "Sending messages to n contacts..."
    - [Cancelled]: "Operation cancelled by user."
    - [SendingTo i n c]: "[i/n] Sending to: c..."
    - [MessageSent c], [MessageNotSent c], [ContactNotFound c]: the three
      lines that close the work on a contact
    - [Done a b]: "Done! Messages sent: a, Failed: b"
    - [CsvNeedsName]: "Error: CSV file must have a 'name' column."
    - [CsvError e]: "Error loading contacts file: e"
    - [BrowserClosed]: "Browser closed. Session ended." *)
Inductive log_line : Type :=
| NoSearchBox
| SearchingPhone (formatted : string)
| SearchingContact (name : string)
| CouldNotFindContact (name : string)
| ErrorSearching (name : string) (e : exn)
| NoMessageBox
| FailedToSend (e : exn)
| NoContacts
| SendingMessagesTo (total : nat)
| Cancelled
| SendingTo (i total : nat) (name : string)
| MessageSent (name : string)
| MessageNotSent (name : string)
| ContactNotFound (name : string)
| Done (success_count fail_count : nat)
| CsvNeedsName
| CsvError (e : exn)
| BrowserClosed.

(** What the program does to the world outside, in order. *)
Inductive event : Type :=
| Browser {T : Type} (c : command T) (r : outcome T)
| Sleep (seconds : nat)
| Log (line : log_line).

(** Everything the program does not decide: what the browser answers to the
    command issued at each step, and the steps during which the user asks
    for cancellation (the other thread sets [cancel_requested]). *)
Record environment : Type := {
  respond : forall T : Type, nat -> command T -> outcome T;
  cancel_pressed : nat -> bool
}.

(** The sender object and the history of the run. [driver] stands for both
    [self.driver] and [self.wait], which [start] sets together. *)
Record sender : Type := {
  driver : option nat;
  is_running : bool;
  cancel_requested : bool;
  clock : nat;
  trace : list event
}.

(** Computations over the sender: a result or an exception, and the sender
    afterwards. *)
Definition M (A : Type) : Type := environment -> sender -> outcome A * sender.

Definition ret {A : Type} (a : A) : M A := fun _ s => (Returns a, s).

Definition raise {A : Type} (e : exn) : M A := fun _ s => (Raises e, s).

Definition bind {A B : Type} (m : M A) (k : A -> M B) : M B :=
  fun env s =>
    match m env s with
    | (Returns a, s') => k a env s'
    | (Raises e, s') => (Raises e, s')
    end.

Declare Scope sender_scope.
Delimit Scope sender_scope with sender.
Notation "x <- m ;; k" := (bind m (fun x => k))
  (at level 61, m at next level, right associativity) : sender_scope.
Notation "m ;; k" := (bind m (fun _ => k))
  (at level 61, right associativity) : sender_scope.
Open Scope sender_scope.

(** [try: body except Exception as e: handler e] *)
Definition try_except {A : Type} (body : M A) (handler : exn -> M A) : M A :=
  fun env s =>
    match body env s with
    | (Returns a, s') => (Returns a, s')
    | (Raises e, s') => handler e env s'
    end.

(** [try: body except: ...], keeping how [body] ended. *)
Definition attempt {A : Type} (body : M A) : M (outcome A) :=
  fun env s => let (r, s') := body env s in (Returns r, s').

(** One step of the run: the event is recorded and a cancellation asked for
    meanwhile reaches the flag. *)
Definition step (env : environment) (ev : event) (s : sender) : sender :=
  {| driver := driver s;
     is_running := is_running s;
     cancel_requested := cancel_requested s || cancel_pressed env (clock s);
     clock := S (clock s);
     trace := trace s ++ [ev] |}.

(** A method of a [WebElement]. *)
Definition call {T : Type} (c : command T) : M T :=
  fun env s =>
    let r := respond env T (clock s) c in (r, step env (Browser c r) s).

(** A method of [self.driver] or [self.wait], which are [None] until
    [start] has run. *)
Definition driver_call {T : Type} (c : command T) : M T :=
  fun env s =>
    match driver s with
    | None => (Raises (AttributeError "'NoneType' object has no attribute"), s)
    | Some _ => call c env s
    end.

(** [time.sleep(seconds)]; it returns. *)
Definition sleep (seconds : nat) : M unit :=
  fun env s => (Returns tt, step env (Sleep seconds) s).

(** [self.log(line)]: the callback and [print] are taken to return. *)
Definition log (line : log_line) : M unit :=
  fun env s => (Returns tt, step env (Log line) s).

(** Reading [self.cancel_requested]. *)
Definition get_cancel_requested : M bool :=
  fun _ s => (Returns (cancel_requested s), s).

Definition get_driver : M (option nat) :=
  fun _ s => (Returns (driver s), s).

(** [self.is_running = b] *)
Definition set_is_running (b : bool) : M unit :=
  fun _ s =>
    (Returns tt,
     {| driver := driver s;
        is_running := b;
        cancel_requested := cancel_requested s;
        clock := clock s;
        trace := trace s |}).

(** *** Locating an input box *)

Definition search_xpath : list string :=
  [ "//div[@contenteditable=" ++ quoted "true" ++ "][@data-tab="
      ++ quoted "3" ++ "]";
    "//div[@role=" ++ quoted "textbox" ++ "][@contenteditable="
      ++ quoted "true" ++ "]";
    "//div[contains(@class, " ++ quoted "selectable-text"
      ++ ")][@contenteditable=" ++ quoted "true" ++ "]" ].

Definition message_box_marker : string :=
  "//div[@contenteditable=" ++ quoted "true" ++ "][@data-tab="
    ++ quoted "10" ++ "]".

Definition message_box_xpaths : list string :=
  [ message_box_marker;
    "//div[@contenteditable=" ++ quoted "true" ++ "][@spellcheck="
      ++ quoted "true" ++ "]";
    "//div[@role=" ++ quoted "textbox" ++ "][@contenteditable="
      ++ quoted "true" ++ "]";
    "//div[contains(@class, " ++ quoted "selectable-text"
      ++ ")][@contenteditable=" ++ quoted "true" ++ "]" ].

(** The loop that tries the XPaths of a box in turn; [box] is the variable
    the loop assigns ([search_box], [message_box]).  A lookup that raises
    moves on to the next XPath; an element found stays assigned even when it
    is not displayed or [is_displayed] raises. *)
Fixpoint locate_box (xpaths : list string) (box : option element)
  : M (option element) :=
  match xpaths with
  | [] => ret box
  | xpath :: rest =>
      found <- attempt (driver_call (WaitPresence xpath));;
      match found with
      | Raises _ => locate_box rest box
      | Returns e =>
          displayed <- attempt (call (IsDisplayed e));;
          match displayed with
          | Returns true => ret (Some e)
          | _ => locate_box rest (Some e)
          end
      end
  end.

(** *** [search_contact] *)

Definition xpath_patterns (contact : string) : list string :=
  [ "//span[@title=" ++ quoted contact ++ "]";
    "//span[contains(@title, " ++ quoted contact ++ ")]";
    "//div[contains(@title, " ++ quoted contact ++ ")]";
    "//div[contains(@class, " ++ quoted "matched-text" ++ ")]/..";
    "//div[contains(@class, " ++ quoted "chat-title" ++ ")]" ].

(** One strategy: the first element the XPath finds is clicked. [true] when
    it was. *)
Definition click_first (xpath : string) : M bool :=
  elements <- driver_call (FindElements xpath);;
  match elements with
  | [] => ret false
  | e :: _ => call (Click e);; sleep 1;; ret true
  end.

(** [for xpath in xpath_patterns]: [Some b] when the loop returns [b] from
    [search_contact], [None] when it runs to its end. *)
Fixpoint try_patterns (patterns : list string) : M (option bool) :=
  match patterns with
  | [] => ret None
  | xpath :: rest =>
      cancel <- get_cancel_requested;;
      if cancel then ret (Some false)
      else
        clicked <- attempt (click_first xpath);;
        match clicked with
        | Returns true => ret (Some true)
        | _ => try_patterns rest
        end
  end.

Definition deep_link (clean_number : string) : string :=
  "https://web.whatsapp.com/send?phone=" ++ clean_number.

(** The direct URL approach, after the loop. *)
Definition open_direct (contact : string) : M (option bool) :=
  if is_phone contact && (7 <? String.length contact)%nat
  then
    let clean_number := PyStr.replace contact "+" "" in
    driver_call (Get (deep_link clean_number));;
    driver_call (WaitPresence message_box_marker);;
    sleep 2;;
    ret (Some true)
  else ret None.

(** The inner [try] of [search_contact]: the strategies, then the direct
    URL; a timeout or a missing element there is passed over. *)
Definition open_chat (contact : string) : M (option bool) :=
  try_except
    (clicked <- try_patterns (xpath_patterns contact);;
     match clicked with
     | Some b => ret (Some b)
     | None => open_direct contact
     end)
    (fun e =>
       match e with
       | TimeoutException _ | NoSuchElementException _ => ret None
       | _ => raise e
       end).

(** Typing the contact in the search box. *)
Definition type_contact (search_box : element) (contact : string) : M unit :=
  call (Clear search_box);;
  (if is_phone contact
   then
     call (SendKeys search_box (Text (formatted_contact contact)));;
     log (SearchingPhone (formatted_contact contact))
   else
     call (SendKeys search_box (Text contact));;
     log (SearchingContact contact));;
  sleep 2.

(** The outer [try] block of [search_contact]. *)
Definition search_contact_body (contact : string) : M bool :=
  search_box <- locate_box search_xpath None;;
  match search_box with
  | None => log NoSearchBox;; ret false
  | Some box =>
      type_contact box contact;;
      opened <- open_chat contact;;
      match opened with
      | Some b => ret b
      | None => log (CouldNotFindContact contact);; ret false
      end
  end.

Definition search_contact (contact : string) : M bool :=
  cancel <- get_cancel_requested;;
  if cancel then ret false
  else
    try_except (search_contact_body contact)
      (fun e => log (ErrorSearching contact e);; ret false).

(** *** [send_message] *)

Definition popup_button_xpath : string :=
  "//div[@role=" ++ quoted "button" ++ " and (contains(., " ++ quoted "OK"
    ++ ") or contains(., " ++ quoted "Yes" ++ ") or contains(., "
    ++ quoted "Continue" ++ "))]".

(** [for button in buttons]: the first displayed button is clicked. *)
Fixpoint dismiss_popup (buttons : list element) : M unit :=
  match buttons with
  | [] => ret tt
  | button :: rest =>
      displayed <- call (IsDisplayed button);;
      if displayed then call (Click button);; sleep 1
      else dismiss_popup rest
  end.

(** [for line in message.split('\n')] *)
Fixpoint type_lines (message_box : element) (lines : list string) : M unit :=
  match lines with
  | [] => ret tt
  | line :: rest =>
      call (SendKeys message_box (Text line));;
      call (SendKeys message_box ShiftEnter);;
      type_lines message_box rest
  end.

Definition send_message_body (message : string) : M bool :=
  message_box <- locate_box message_box_xpaths None;;
  match message_box with
  | None => log NoMessageBox;; ret false
  | Some box =>
      attempt (buttons <- driver_call (FindElements popup_button_xpath);;
               dismiss_popup buttons);;
      call (Clear box);;
      type_lines box (PyStr.split_sep message LF);;
      call (SendKeys box Backspace);;
      call (SendKeys box Enter);;
      sleep 1;;
      ret true
  end.

Definition send_message (message : string) : M bool :=
  cancel <- get_cancel_requested;;
  if cancel then ret false
  else
    try_except (send_message_body message)
      (fun e => log (FailedToSend e);; ret false).

(** *** [send_bulk_messages] *)

(** The wait between messages: [for i in range(delay)]. *)
Fixpoint wait_between (seconds : nat) : M unit :=
  match seconds with
  | O => ret tt
  | S k =>
      cancel <- get_cancel_requested;;
      if cancel then ret tt else sleep 1;; wait_between k
  end.

(** The counters [success_count] and [fail_count]. *)
Record counts : Type := {
  success_count : nat;
  fail_count : nat
}.

Definition succeeded (n : counts) : counts :=
  {| success_count := S (success_count n); fail_count := fail_count n |}.

Definition failed (n : counts) : counts :=
  {| success_count := success_count n; fail_count := S (fail_count n) |}.

(** Searching the contact and sending it the personalised message, with
    the counter that goes up. *)
Definition deliver (contact_name : string) (c : contact) (message : string)
    (n : counts) : M counts :=
  found <- search_contact contact_name;;
  if found then
    sent <- send_message (personalize message contact_name c);;
    if sent then log (MessageSent contact_name);; ret (succeeded n)
    else log (MessageNotSent contact_name);; ret (failed n)
  else log (ContactNotFound contact_name);; ret (failed n).

(** The body of the loop over the contacts, below its cancellation test. *)
Definition send_to (i total : nat) (c : contact) (message : string)
    (delay : Z) (n : counts) : M counts :=
  contact_name <- match getitem c "name" with
                  | Some v => ret v
                  | None => raise (KeyError "name")
                  end;;
  log (SendingTo i total contact_name);;
  n' <- deliver contact_name c message n;;
  wait_between (Z.to_nat delay);;
  ret n'.

(** [for i, contact in enumerate(contacts, 1)], from the contact numbered
    [i] on; the result is the counters when the loop ends or breaks. *)
Fixpoint send_loop (i total : nat) (contacts : list contact)
    (message : string) (delay : Z) (n : counts) : M counts :=
  match contacts with
  | [] => ret n
  | c :: rest =>
      cancel <- get_cancel_requested;;
      if cancel then log Cancelled;; ret n
      else
        n' <- send_to i total c message delay n;;
        send_loop (S i) total rest message delay n'
  end.

Definition send_bulk_messages (contacts : list contact) (message : string)
    (delay : Z) : M unit :=
  match contacts with
  | [] => log NoContacts
  | _ :: _ =>
      log (SendingMessagesTo (List.length contacts));;
      n <- send_loop 1 (List.length contacts) contacts message delay
             {| success_count := 0; fail_count := 0 |};;
      log (Done (success_count n) (fail_count n));;
      set_is_running false
  end.

(** *** [quit] *)

Definition quit : M unit :=
  d <- get_driver;;
  match d with
  | Some _ => try_except (driver_call Quit;; log BrowserClosed)
                (fun _ => ret tt)
  | None => ret tt
  end;;
  set_is_running false.

(** ** Loading the contacts of a CSV file *)
Module Csv.

(** The values of a row of [csv.DictReader]: a field, [None] for a field
    the record is too short for, or the list of the fields beyond the
    header. *)
Inductive cell : Type :=
| Str (s : string)
| Missing
| Rest (fields : list string).

(** The keys of a row: a field name, or [None] (the [restkey]). *)
Definition key : Type := option string.

Definition key_eqb (a b : key) : bool :=
  match a, b with
  | Some x, Some y => String.eqb x y
  | None, None => true
  | _, _ => false
  end.

Definition row : Type := list (key * cell).

(** [d[k] = v]: a key already there keeps its place. *)
Fixpoint setitem (d : row) (k : key) (v : cell) : row :=
  match d with
  | [] => [(k, v)]
  | (k', v') :: d' =>
      if key_eqb k' k then (k', v) :: d' else (k', v') :: setitem d' k v
  end.

(** [k in d] *)
Definition has_key (d : row) (k : key) : bool :=
  existsb (fun item => key_eqb (fst item) k) d.

(** [dict(zip(fieldnames, record))] *)
Definition dict_zip (fieldnames record : list string) : row :=
  fold_left (fun d item => setitem d (Some (fst item)) (Str (snd item)))
    (combine fieldnames record) [].

(** The row [DictReader] builds from a record that is not blank. *)
Definition dict_row (fieldnames record : list string) : row :=
  let d := dict_zip fieldnames record in
  let lf := List.length fieldnames in
  let lr := List.length record in
  if (lf <? lr)%nat then setitem d None (Rest (skipn lf record))
  else if (lr <? lf)%nat then
    fold_left (fun d name => setitem d (Some name) Missing)
      (skipn lr fieldnames) d
  else d.

(** The records that are not blank. *)
Definition data_records (records : list (list string))
  : list (list string) :=
  filter (fun record => match record with [] => false | _ :: _ => true end)
    records.

(** What reading the file gives: [open] or the decoder raise at once, or
    [csv.reader] yields records (lists of fields) and then either ends or
    raises. *)
Inductive file : Type :=
| Unreadable (e : exn)
| Records (records : list (list string)) (failure : option exn).

(** [for row in reader], after the header. Blank records are skipped by
    [DictReader]. *)
Fixpoint read_rows (fieldnames : list string)
    (records : list (list string)) (failure : option exn)
    (contacts : list row) : M (list row) :=
  match records with
  | [] =>
      match failure with
      | Some e => raise e
      | None => ret contacts
      end
  | [] :: rest => read_rows fieldnames rest failure contacts
  | record :: rest =>
      let r := dict_row fieldnames record in
      if has_key r (Some "name")
      then read_rows fieldnames rest failure (contacts ++ [r])
      else log CsvNeedsName;; ret []
  end.

Definition load_contacts_from_csv (f : file) : M (list row) :=
  try_except
    (match f with
     | Unreadable e => raise e
     | Records [] None => ret []
     | Records [] (Some e) => raise e
     | Records (fieldnames :: records) failure =>
         read_rows fieldnames records failure []
     end)
    (fun e => log (CsvError e);; ret []).

End Csv.

(** ** Auxiliary functions of the proofs *)

(** [s] with [f] applied to each character. *)
Fixpoint map_chars (f : ascii -> ascii) (s : string) : string :=
  match s with
  | EmptyString => EmptyString
  | String c s' => String (f c) (map_chars f s')
  end.

(** [s] without the character [a]. *)
Fixpoint remove_char (a : ascii) (s : string) : string :=
  match s with
  | EmptyString => EmptyString
  | String c s' =>
      if Ascii.eqb c a then remove_char a s' else String c (remove_char a s')
  end.

(** A segment once [{key}] has been replaced by [value]. *)
Definition fill (key value : string) (g : segment) : segment :=
  match g with
  | Plain _ => g
  | Field n => if String.eqb n key then Plain value else g
  end.

(** A segment after the turn of the loop for [item]. *)
Definition fill_item (g : segment) (item : string * string) : segment :=
  let (key, value) := item in
  if String.eqb key "name" then g else fill key value g.

(** The numbers [add_bulk_phones] counts as invalid. *)
Definition rejected (number : string) : bool := negb (is_phone number).

(** ** Properties of runs *)

(** [s'] is reached from [s] by steps whose events all satisfy [P]: the
    trace only grows, the driver handle is the same and a cancellation
    asked for is still asked for. *)
Definition follows (P : event -> Prop) (s s' : sender) : Prop :=
  (exists evs, trace s' = trace s ++ evs /\ Forall P evs)%list
  /\ driver s' = driver s
  /\ (cancel_requested s = true -> cancel_requested s' = true).

(** Every run of [m] adds only events that satisfy [P]. *)
Definition emits {A : Type} (P : event -> Prop) (m : M A) : Prop :=
  forall env s, follows P s (snd (m env s)).

(** No run of [m] ends with an exception. *)
Definition never_raises {A : Type} (m : M A) : Prop :=
  forall env s, exists a, fst (m env s) = Returns a.

(** The events [search_contact] and [send_message] may add: commands to
    the page, never [Quit], sleeps and their own log lines. *)
Definition page_event (ev : event) : Prop :=
  match ev with
  | Browser c _ =>
      match c with
      | Quit => False
      | _ => True
      end
  | Sleep _ => True
  | Log line =>
      match line with
      | NoSearchBox | SearchingPhone _ | SearchingContact _
      | CouldNotFindContact _ | ErrorSearching _ _ | NoMessageBox
      | FailedToSend _ => True
      | _ => False
      end
  end.

(** The log line that opens the work on a contact. *)
Definition is_attempt (ev : event) : bool :=
  match ev with
  | Log (SendingTo _ _ _) => true
  | _ => false
  end.

(** The number of contacts a run has started to work on. *)
Definition attempts (evs : list event) : nat :=
  List.length (filter is_attempt evs).

(** The events of the work on one contact after its opening line. *)
Definition contact_event (ev : event) : Prop :=
  match ev with
  | Browser c _ =>
      match c with
      | Quit => False
      | _ => True
      end
  | Sleep _ => True
  | Log line =>
      match line with
      | SendingTo _ _ _ | SendingMessagesTo _ | Done _ _ | Cancelled
      | NoContacts | CsvNeedsName | CsvError _ | BrowserClosed => False
      | _ => True
      end
  end.

(** ['name' in c] *)
Definition has_name (c : contact) : bool :=
  match getitem c "name" with
  | Some _ => true
  | None => false
  end.

(** ** Sample environments and senders *)

(** A browser in which every element is found and displayed, no search
    result matches and no command fails; nobody cancels. *)
Definition no_match : environment :=
  {| respond := fun T _ c =>
       match c in command T return outcome T with
       | WaitPresence _ => Returns 1
       | FindElements _ => Returns []
       | IsDisplayed _ => Returns true
       | Clear _ => Returns tt
       | SendKeys _ _ => Returns tt
       | Click _ => Returns tt
       | Get _ => Returns tt
       | Quit => Returns tt
       end;
     cancel_pressed := fun _ => false |}.

(** A browser whose first lookup times out and in which everything works
    afterwards, the first strategy finding the contact. *)
Definition slow_start : environment :=
  {| respond := fun T t c =>
       match c in command T return outcome T with
       | WaitPresence _ =>
           if (t =? 0)%nat then Raises (TimeoutException "timeout")
           else Returns 1
       | FindElements _ => Returns [7]
       | IsDisplayed _ => Returns true
       | Clear _ => Returns tt
       | SendKeys _ _ => Returns tt
       | Click _ => Returns tt
       | Get _ => Returns tt
       | Quit => Returns tt
       end;
     cancel_pressed := fun _ => false |}.

(** The browser of [no_match], with a user who asks for cancellation while
    step 5 of the run is under way. *)
Definition cancel_at_5 : environment :=
  {| respond := respond no_match;
     cancel_pressed := fun t => (t =? 5)%nat |}.

(** A sender after [start]: the browser is live and nothing is cancelled. *)
Definition started : sender :=
  {| driver := Some 0;
     is_running := true;
     cancel_requested := false;
     clock := 0;
     trace := [] |}.

(** The same sender once the user has asked to cancel. *)
Definition cancelling : sender :=
  {| driver := Some 0;
     is_running := true;
     cancel_requested := true;
     clock := 0;
     trace := [] |}.

(** ** The rest of the manual entry and of the window *)

(** [l] without its element at [idx]; [l] itself when it has none there. *)
Definition delete_at {A : Type} (idx : nat) (l : list A) : list A :=
  (firstn idx l ++ skipn (S idx) l)%list.

(** [remove_phone]; [curselection] is what the listbox gives as selected.
    With nothing selected, [curselection()[0]] raises and nothing is done.
    Otherwise the entry is deleted from the listbox (which ignores an index
    beyond its end) and popped from [manual_contacts]; the [IndexError] of a
    [pop] beyond the end is passed over, after the listbox was changed. *)
Definition remove_phone (curselection : list nat) (g : GUI.state)
  : GUI.state :=
  match curselection with
  | [] => g
  | selected_idx :: _ =>
      {| GUI.manual_contacts :=
           if (selected_idx <? List.length (GUI.manual_contacts g))%nat
           then delete_at selected_idx (GUI.manual_contacts g)
           else GUI.manual_contacts g;
         GUI.phones_listbox :=
           delete_at selected_idx (GUI.phones_listbox g) |}
  end.

(** [clear_phones] *)
Definition clear_phones (g : GUI.state) : GUI.state :=
  {| GUI.manual_contacts := []; GUI.phones_listbox := [] |}.

(** The manual tab as [__init__] leaves it. *)
Definition no_phones : GUI.state :=
  {| GUI.manual_contacts := []; GUI.phones_listbox := [] |}.

(** The states of the manual tab the user can reach. *)
Inductive entered : GUI.state -> Prop :=
| entered_init : entered no_phones
| entered_add_phone (text : string) (g : GUI.state) :
    entered g -> entered (fst (GUI.add_phone text g))
| entered_add_bulk_phones (text : string) (g : GUI.state) :
    entered g -> entered (fst (GUI.add_bulk_phones text g))
| entered_remove_phone (curselection : list nat) (g : GUI.state) :
    entered g -> entered (remove_phone curselection g)
| entered_clear_phones (g : GUI.state) :
    entered g -> entered (clear_phones g).

(** The two lists of the manual tab hold the same numbers. *)
Definition in_step (g : GUI.state) : Prop :=
  GUI.manual_contacts g
  = map (fun n => [("name", n)]) (GUI.phones_listbox g).

(** The reading of the file ends with an exception. *)
Definition read_fails (f : Csv.file) : bool :=
  match f with
  | Csv.Unreadable _ => true
  | Csv.Records _ (Some _) => true
  | Csv.Records _ None => false
  end.

(** [cancel_operation], on the sender: the flag is set only while
    [is_running] holds. *)
Definition cancel_operation (s : sender) : sender :=
  if is_running s
  then {| driver := driver s;
          is_running := is_running s;
          cancel_requested := true;
          clock := clock s;
          trace := trace s |}
  else s.

(** ** More properties of runs *)

(** Every run of [m] relates the sender before and after by [R]. *)
Definition framed (R : environment -> sender -> sender -> Prop) {A : Type}
    (m : M A) : Prop :=
  forall env s, R env s (snd (m env s)).

(** The user never asks for cancellation. *)
Definition never_cancels (env : environment) : Prop :=
  forall t, cancel_pressed env t = false.

(** What no operation on the page undoes: the driver handle stays, a
    cancellation asked for stays asked for, the flag moves only when the
    user asks, and time goes on. *)
Definition advances (env : environment) (s s' : sender) : Prop :=
  driver s' = driver s
  /\ (cancel_requested s = true -> cancel_requested s' = true)
  /\ (never_cancels env -> cancel_requested s' = cancel_requested s)
  /\ clock s <= clock s'.

(** [is_running] is not assigned. *)
Definition same_running (env : environment) (s s' : sender) : Prop :=
  is_running s' = is_running s.

(** The keys an event sends to an element. *)
Definition keys_of (ev : event) : list keys :=
  match ev with
  | Browser c _ =>
      match c with
      | SendKeys _ k => [k]
      | _ => []
      end
  | _ => []
  end.

Definition keys_sent (evs : list event) : list keys := flat_map keys_of evs.

(** An event that sends no keys. *)
Definition no_keys (ev : event) : Prop :=
  match ev with
  | Browser c _ =>
      match c with
      | SendKeys _ _ => False
      | _ => True
      end
  | _ => True
  end.

(** The keys of a message: each line and a soft break, then the last break
    taken back and the message submitted. *)
Definition typing (message : string) : list keys :=
  (flat_map (fun line => [Text line; ShiftEnter])
     (PyStr.split_sep message LF)
   ++ [Backspace; Enter])%list.

(** [sep.join(pieces)] *)
Fixpoint join (sep : string) (pieces : list string) : string :=
  match pieces with
  | [] => EmptyString
  | [piece] => piece
  | piece :: rest => piece ++ sep ++ join sep rest
  end.

(** The trace ends with these events. *)
Definition ends_with (evs suffix : list event) : Prop :=
  exists before, evs = (before ++ suffix)%list.

(** A lookup of a box that raised. *)
Definition raised_lookup (ev : event) : Prop :=
  match ev with
  | Browser c r =>
      match c with
      | WaitPresence _ =>
          match r with
          | Raises _ => True
          | Returns _ => False
          end
      | _ => False
      end
  | _ => False
  end.

(** A lookup of one of [xpaths] that returned the element [e]. *)
Definition found_by (xpaths : list string) (e : element) (ev : event) : Prop :=
  match ev with
  | Browser c r =>
      match c in command T return outcome T -> Prop with
      | WaitPresence xpath =>
          fun r =>
            match r with
            | Returns e' => e' = e /\ In xpath xpaths
            | Raises _ => False
            end
      | _ => fun _ => False
      end r
  | _ => False
  end.

(** The lines that close the work on a contact. *)
Definition is_sent (ev : event) : bool :=
  match ev with
  | Log (MessageSent _) => true
  | _ => false
  end.

Definition is_failure (ev : event) : bool :=
  match ev with
  | Log (MessageNotSent _) | Log (ContactNotFound _) => true
  | _ => false
  end.

Definition sent_lines (evs : list event) : nat :=
  List.length (filter is_sent evs).

Definition failure_lines (evs : list event) : nat :=
  List.length (filter is_failure evs).

(** No two names are the same. *)
Fixpoint distinct (names : list string) : bool :=
  match names with
  | [] => true
  | name :: rest => negb (existsb (String.eqb name) rest) && distinct rest
  end.

(** A sender before [start]: no browser. *)
Definition idle : sender :=
  {| driver := None;
     is_running := false;
     cancel_requested := false;
     clock := 0;
     trace := [] |}.

(** A browser in which everything is found, displayed and done, the first
    strategy finding the contact; nobody cancels. *)
Definition all_found : environment :=
  {| respond := fun T _ c =>
       match c in command T return outcome T with
       | WaitPresence _ => Returns 1
       | FindElements _ => Returns [7]
       | IsDisplayed _ => Returns true
       | Clear _ => Returns tt
       | SendKeys _ _ => Returns tt
       | Click _ => Returns tt
       | Get _ => Returns tt
       | Quit => Returns tt
       end;
     cancel_pressed := fun _ => false |}.

(** A browser in which no strategy finds the contact and the navigation
    to a URL fails. *)
Definition no_navigation : environment :=
  {| respond := fun T _ c =>
       match c in command T return outcome T with
       | WaitPresence _ => Returns 1
       | FindElements _ => Returns []
       | IsDisplayed _ => Returns true
       | Clear _ => Returns tt
       | SendKeys _ _ => Returns tt
       | Click _ => Returns tt
       | Get _ => Raises (OtherException "net::ERR_INTERNET_DISCONNECTED")
       | Quit => Returns tt
       end;
     cancel_pressed := fun _ => false |}.

(** The line [search_contact] logs for an exception of the direct URL: a
    timeout or a missing element is passed over by the inner [except] and
    the contact reported as not found; anything else reaches the outer
    [except]. *)
Definition reported (contact : string) (x : exn) : log_line :=
  match x with
  | TimeoutException _ | NoSuchElementException _ =>
      CouldNotFindContact contact
  | _ => ErrorSearching contact x
  end.





(** * Properties *)

(** ** Strings *)

Example replace_leftmost : PyStr.replace "aaa" "aa" "b" = "ba".
Proof. reflexivity. Qed.

Example replace_empty_old : PyStr.replace "abc" "" "-" = "-a-b-c-".
Proof. reflexivity. Qed.

Example split_runs : PyStr.split "  12 345   6 " = ["12"; "345"; "6"].
Proof. reflexivity. Qed.

Example split_sep_keeps_empty :
  PyStr.split_sep (String "a" (String LF (String LF "b"))) LF = ["a"; ""; "b"].
Proof. reflexivity. Qed.

Example strip_both_ends : PyStr.strip "  a b  " = "a b".
Proof. reflexivity. Qed.

Example isdigit_empty : PyStr.isdigit "" = false.
Proof. reflexivity. Qed.

Lemma append_nil_r (s : string) : s ++ "" = s.
Proof. induction s as [|c s IH]; simpl; [reflexivity | now rewrite IH]. Qed.

Lemma append_assoc (a b c : string) : (a ++ b) ++ c = a ++ (b ++ c).
Proof. induction a as [|x a IH]; simpl; [reflexivity | now rewrite IH]. Qed.

Lemma append_length (a b : string) :
  String.length (a ++ b) = String.length a + String.length b.
Proof. induction a as [|x a IH]; simpl; [reflexivity | now rewrite IH]. Qed.

Lemma all_chars_app (p : ascii -> bool) (a b : string) :
  PyStr.all_chars p (a ++ b) = PyStr.all_chars p a && PyStr.all_chars p b.
Proof.
  induction a as [|x a IH]; simpl; [reflexivity|].
  now rewrite IH, andb_assoc.
Qed.

Lemma all_chars_weaken (p q : ascii -> bool) (s : string) :
  (forall c, p c = true -> q c = true) ->
  PyStr.all_chars p s = true -> PyStr.all_chars q s = true.
Proof.
  intros Hpq. induction s as [|c s IH]; simpl; [reflexivity|].
  intros H. apply andb_true_iff in H as [Hc Hs].
  now rewrite (Hpq c Hc), IH.
Qed.

Lemma startswith_app (p rest : string) : PyStr.startswith (p ++ rest) p = true.
Proof.
  induction p as [|a p IH]; simpl; [reflexivity|].
  now rewrite Ascii.eqb_refl, IH.
Qed.

Lemma startswith_head (c a : ascii) (s p : string) :
  Ascii.eqb c a = false -> PyStr.startswith (String c s) (String a p) = false.
Proof. intros H. simpl. now rewrite H. Qed.

Lemma no_plus_prefix (s : string) : "+" ++ s <> s.
Proof.
  intros H. apply (f_equal String.length) in H. simpl in H. lia.
Qed.

(** *** [replace] *)

Lemma replace_from_skip (old new a rest : string) :
  PyStr.replace_from (String.length a) old new (a ++ rest)
  = PyStr.replace_from 0 old new rest.
Proof.
  induction a as [|x a IH]; simpl; [reflexivity | exact IH].
Qed.

(** An occurrence at the head is replaced and the scan resumes after it. *)
Lemma replace_from_match (a : ascii) (old new rest : string) :
  PyStr.replace_from 0 (String a old) new (String a old ++ rest)
  = new ++ PyStr.replace_from 0 (String a old) new rest.
Proof.
  pose proof (startswith_app (String a old) rest) as H.
  change (String a old ++ rest) with (String a (old ++ rest)) in *.
  cbn [PyStr.replace_from]. rewrite H.
  cbn [String.length].
  replace (S (String.length old) - 1) with (String.length old) by lia.
  now rewrite replace_from_skip.
Qed.

(** Text without the first character of [old] is copied. *)
Lemma replace_from_copy (a : ascii) (old new text rest : string) :
  PyStr.all_chars (fun c => negb (Ascii.eqb c a)) text = true ->
  PyStr.replace_from 0 (String a old) new (text ++ rest)
  = text ++ PyStr.replace_from 0 (String a old) new rest.
Proof.
  induction text as [|c text IH]; intros H; [reflexivity|].
  cbn [PyStr.all_chars] in H. apply andb_true_iff in H as [Hc Ht].
  apply negb_true_iff in Hc.
  change (String c text ++ rest) with (String c (text ++ rest)).
  cbn [PyStr.replace_from].
  rewrite (startswith_head c a _ old Hc).
  now rewrite IH.
Qed.

Lemma contains_false_startswith (s sub : string) :
  PyStr.contains s sub = false -> PyStr.startswith s sub = false.
Proof.
  destruct s; simpl; intros H; apply orb_false_iff in H; tauto.
Qed.

(** Without an occurrence, [replace] changes nothing: the test [old in s]
    before a [replace] only saves the call. *)
Lemma replace_from_absent (a : ascii) (old new s : string) :
  PyStr.contains s (String a old) = false ->
  PyStr.replace_from 0 (String a old) new s = s.
Proof.
  induction s as [|c s IH]; intros H; [reflexivity|].
  pose proof (contains_false_startswith _ _ H) as Hs.
  cbn [PyStr.replace_from]. rewrite Hs.
  cbn [PyStr.contains] in H. apply orb_false_iff in H as [_ H].
  now rewrite IH.
Qed.

Lemma guarded_replace (a : ascii) (old new s : string) :
  (if PyStr.contains s (String a old)
   then PyStr.replace s (String a old) new else s)
  = PyStr.replace s (String a old) new.
Proof.
  destruct (PyStr.contains s (String a old)) eqn:H; [reflexivity|].
  unfold PyStr.replace. now rewrite replace_from_absent.
Qed.

(** Replacing one character by another, everywhere. *)
Lemma replace_char (a b : ascii) (s : string) :
  PyStr.replace s (String a "") (String b "")
  = map_chars (fun c => if Ascii.eqb c a then b else c) s.
Proof.
  unfold PyStr.replace.
  induction s as [|c s IH]; [reflexivity|].
  cbn [PyStr.replace_from PyStr.startswith map_chars String.length].
  rewrite andb_true_r.
  destruct (Ascii.eqb c a); simpl; now rewrite IH.
Qed.

(** Replacing one character by nothing removes it. *)
Lemma replace_char_empty (a : ascii) (s : string) :
  PyStr.replace s (String a "") "" = remove_char a s.
Proof.
  unfold PyStr.replace.
  induction s as [|c s IH]; [reflexivity|].
  cbn [PyStr.replace_from PyStr.startswith remove_char String.length].
  rewrite andb_true_r.
  destruct (Ascii.eqb c a); simpl; now rewrite IH.
Qed.

(** *** [strip] and [split] *)

Lemma lstrip_id (s : string) :
  PyStr.all_chars (fun c => negb (PyStr.isspace_char c)) s = true ->
  PyStr.lstrip s = s.
Proof.
  destruct s as [|c s]; simpl; [reflexivity|].
  intros H. apply andb_true_iff in H as [Hc _].
  apply negb_true_iff in Hc. now rewrite Hc.
Qed.

Lemma rstrip_id (s : string) :
  PyStr.all_chars (fun c => negb (PyStr.isspace_char c)) s = true ->
  PyStr.rstrip s = s.
Proof.
  induction s as [|c s IH]; simpl; [reflexivity|].
  intros H. apply andb_true_iff in H as [Hc Hs].
  apply negb_true_iff in Hc. rewrite (IH Hs), Hc.
  now destruct s.
Qed.

Lemma strip_id (s : string) :
  PyStr.all_chars (fun c => negb (PyStr.isspace_char c)) s = true ->
  PyStr.strip s = s.
Proof.
  intros H. unfold PyStr.strip. now rewrite (rstrip_id s H), lstrip_id.
Qed.

Lemma flush_app (cur : string) (c : ascii) :
  PyStr.flush (cur ++ String c "") = [cur ++ String c ""].
Proof. now destruct cur. Qed.

(** A separator ends the run before it and starts the next after it. *)
Lemma fields_app_sep (sep : ascii -> bool) (a : string) :
  forall (cur : string) (c : ascii) (b : string),
    sep c = true ->
    PyStr.fields sep cur (a ++ String c b)
    = (PyStr.fields sep cur a ++ PyStr.fields sep "" b)%list.
Proof.
  induction a as [|x a IH]; intros cur c b Hc; simpl.
  - now rewrite Hc.
  - destruct (sep x).
    + now rewrite (IH "" c b Hc), app_assoc.
    + apply IH, Hc.
Qed.

Lemma fields_ext (sep sep' : ascii -> bool) (s : string) :
  (forall c, sep c = sep' c) ->
  forall cur, PyStr.fields sep cur s = PyStr.fields sep' cur s.
Proof.
  intros H. induction s as [|c s IH]; intros cur; simpl; [reflexivity|].
  rewrite <- H. destruct (sep c); now rewrite IH.
Qed.

(** Turning some separators into others does not change the runs. *)
Lemma fields_map_chars (sep : ascii -> bool) (f : ascii -> ascii) (s : string) :
  (forall c, sep (f c) = false -> f c = c) ->
  forall cur,
    PyStr.fields sep cur (map_chars f s)
    = PyStr.fields (fun c => sep (f c)) cur s.
Proof.
  intros Hf. induction s as [|c s IH]; intros cur; simpl; [reflexivity|].
  destruct (sep (f c)) eqn:E.
  - now rewrite IH.
  - now rewrite (Hf c E), IH.
Qed.

(** Cutting at a separator first and collecting the runs of each piece gives
    the runs of the whole. *)
Lemma fields_split_on (sep : ascii -> bool) (nl : ascii) (s : string) :
  sep nl = true ->
  forall cur,
    concat (map (PyStr.fields sep "") (PyStr.split_on nl cur s))
    = PyStr.fields sep "" (cur ++ s).
Proof.
  intros Hnl. induction s as [|c s IH]; intros cur; simpl.
  - now rewrite app_nil_r, append_nil_r.
  - destruct (Ascii.eqb_spec c nl) as [->|Hc].
    + simpl. rewrite (IH ""). simpl.
      now rewrite (fields_app_sep sep cur "" nl s Hnl).
    + rewrite IH. now rewrite append_assoc.
Qed.

Lemma fields_lstrip (sep : ascii -> bool) (s : string) :
  (forall c, PyStr.isspace_char c = true -> sep c = true) ->
  PyStr.fields sep "" (PyStr.lstrip s) = PyStr.fields sep "" s.
Proof.
  intros Hws. induction s as [|c s IH]; simpl; [reflexivity|].
  destruct (PyStr.isspace_char c) eqn:E; [|reflexivity].
  now rewrite (Hws c E), IH.
Qed.

Lemma fields_rstrip (sep : ascii -> bool) (s : string) :
  (forall c, PyStr.isspace_char c = true -> sep c = true) ->
  forall cur, PyStr.fields sep cur (PyStr.rstrip s) = PyStr.fields sep cur s.
Proof.
  intros Hws. induction s as [|c s IH]; intros cur; [reflexivity|].
  cbn [PyStr.rstrip].
  destruct (PyStr.rstrip s) as [|d r] eqn:E.
  - destruct (PyStr.isspace_char c) eqn:Ec.
    + cbn [PyStr.fields]. rewrite (Hws c Ec), <- (IH "").
      cbn. now rewrite app_nil_r.
    + cbn [PyStr.fields]. destruct (sep c); now rewrite <- IH.
  - cbn [PyStr.fields]. destruct (sep c); now rewrite <- IH.
Qed.

Lemma fields_strip (sep : ascii -> bool) (s : string) :
  (forall c, PyStr.isspace_char c = true -> sep c = true) ->
  PyStr.fields sep "" (PyStr.strip s) = PyStr.fields sep "" s.
Proof.
  intros Hws. unfold PyStr.strip.
  now rewrite (fields_lstrip sep _ Hws), (fields_rstrip sep s Hws).
Qed.

(** The runs are not empty and hold no separator. *)
Lemma fields_no_sep (sep : ascii -> bool) (s : string) :
  forall cur w,
    PyStr.all_chars (fun c => negb (sep c)) cur = true ->
    In w (PyStr.fields sep cur s) ->
    w <> "" /\ PyStr.all_chars (fun c => negb (sep c)) w = true.
Proof.
  induction s as [|c s IH]; intros cur w Hcur Hin; simpl in Hin.
  - destruct cur; simpl in Hin; [tauto|].
    destruct Hin as [<-|[]]. split; [discriminate | exact Hcur].
  - destruct (sep c) eqn:E.
    + apply in_app_or in Hin as [Hin|Hin].
      * destruct cur; simpl in Hin; [tauto|].
        destruct Hin as [<-|[]]. split; [discriminate | exact Hcur].
      * now apply (IH "" w).
    + apply (IH (cur ++ String c "") w); [|exact Hin].
      rewrite all_chars_app, Hcur. simpl. now rewrite E.
Qed.

Lemma fold_left_concat_map {A B C : Type} (f : A -> B -> A) (g : C -> list B)
    (xs : list C) :
  forall a,
    fold_left (fun acc x => fold_left f (g x) acc) xs a
    = fold_left f (concat (map g xs)) a.
Proof.
  induction xs as [|x xs IH]; intros a; simpl; [reflexivity|].
  now rewrite fold_left_app, IH.
Qed.

(** ** Phone numbers *)

Lemma digit_or_plus_not_space (c : ascii) :
  PyStr.isdigit_char c || Ascii.eqb c "+" = true ->
  PyStr.isspace_char c = false.
Proof.
  destruct c as [[] [] [] [] [] [] [] []]; vm_compute; congruence.
Qed.

Lemma all_chars_remove_char (p : ascii -> bool) (a : ascii) (s : string) :
  PyStr.all_chars p (remove_char a s)
  = PyStr.all_chars (fun c => p c || Ascii.eqb c a) s.
Proof.
  induction s as [|c s IH]; simpl; [reflexivity|].
  destruct (Ascii.eqb c a); simpl.
  - now rewrite IH, orb_true_r.
  - now rewrite IH, orb_false_r.
Qed.

Lemma isdigit_all (s : string) :
  PyStr.isdigit s = true -> PyStr.all_chars PyStr.isdigit_char s = true.
Proof. destruct s; [discriminate | trivial]. Qed.

(** A phone-like text is what the claim calls digit-only: once its [+] are
    removed, at least one character is left and all are digits. *)
Lemma is_phone_spec (contact : string) :
  is_phone contact = true
  <-> remove_char "+" contact <> ""
      /\ PyStr.all_chars PyStr.isdigit_char (remove_char "+" contact) = true.
Proof.
  unfold is_phone. rewrite (replace_char_empty "+" contact).
  destruct (remove_char "+" contact) as [|c r]; simpl.
  - split; [discriminate | intros [H _]; now elim H].
  - split; [intros H; split; [discriminate | exact H] | tauto].
Qed.

Lemma is_phone_no_space (contact : string) :
  is_phone contact = true ->
  PyStr.all_chars (fun c => negb (PyStr.isspace_char c)) contact = true.
Proof.
  intros H. apply is_phone_spec in H as [_ H].
  rewrite all_chars_remove_char in H.
  revert H. apply all_chars_weaken.
  intros c Hc. now rewrite (digit_or_plus_not_space c Hc).
Qed.

Lemma is_phone_nonempty (contact : string) :
  is_phone contact = true -> contact <> "".
Proof. intros H ->. discriminate. Qed.

(** The rule of the [+] prefix, for the text typed by [search_contact]. *)
Lemma formatted_contact_rule (contact : string) :
  (formatted_contact contact = "+" ++ contact
   <-> 7 < String.length contact /\ PyStr.startswith contact "+" = false)
  /\ (PyStr.startswith contact "+" = true -> formatted_contact contact = contact)
  /\ (String.length contact <= 7 -> formatted_contact contact = contact).
Proof.
  unfold formatted_contact.
  destruct (Nat.ltb_spec 7 (String.length contact)) as [Hl|Hl];
    destruct (PyStr.startswith contact "+") eqn:Hp; cbn [andb negb].
  all: split; [split|split].
  all: try (intros H; symmetry in H; now elim (no_plus_prefix contact)).
  all: try (intros [? ?]; (lia || discriminate)).
  all: try reflexivity.
  all: try (intros; (lia || discriminate)).
  all: try (split; [assumption | reflexivity]).
Qed.

(** [add_phone] and [add_bulk_phones] apply the same rule. *)
Lemma format_phone_formatted (phone : string) :
  format_phone phone = formatted_contact phone.
Proof.
  unfold format_phone, formatted_contact. now rewrite andb_comm.
Qed.

(** ** The bulk field *)

Lemma separator_after_replace (c : ascii) :
  PyStr.isspace_char
    ((fun c => if Ascii.eqb c ";" then LF else c)
       ((fun c => if Ascii.eqb c "," then LF else c) c))
  = GUI.is_separator c.
Proof.
  destruct c as [[] [] [] [] [] [] [] []]; reflexivity.
Qed.

Lemma separator_of_space (c : ascii) :
  PyStr.isspace_char c = true -> GUI.is_separator c = true.
Proof. unfold GUI.is_separator. now intros ->. Qed.

(** The numbers [add_bulk_phones] goes through, line after line, are the
    candidates of the text. *)
Lemma bulk_lines_candidates (text : string) :
  concat (map PyStr.split
            (PyStr.split_sep
               (PyStr.replace (PyStr.replace (PyStr.strip text) "," newline)
                  ";" newline) LF))
  = GUI.candidates text.
Proof.
  unfold newline. rewrite !replace_char.
  unfold PyStr.split_sep, GUI.candidates.
  change PyStr.split with (PyStr.fields PyStr.isspace_char "").
  rewrite (fields_split_on PyStr.isspace_char LF _ eq_refl "").
  cbn [append].
  rewrite fields_map_chars.
  2:{ intros c. destruct (Ascii.eqb c ";") eqn:E; [discriminate | reflexivity]. }
  rewrite fields_map_chars.
  2:{ intros c. destruct (Ascii.eqb c ",") eqn:E; [|reflexivity].
      destruct (Ascii.eqb LF ";"); discriminate. }
  rewrite (fields_ext _ GUI.is_separator _ separator_after_replace).
  apply fields_strip, separator_of_space.
Qed.

Lemma candidates_no_space (text w : string) :
  In w (GUI.candidates text) ->
  w <> "" /\ PyStr.strip w = w.
Proof.
  intros H. apply fields_no_sep in H as [Hne Hw]; [|reflexivity].
  split; [exact Hne|]. apply strip_id.
  revert Hw. apply all_chars_weaken.
  intros c Hc. apply negb_true_iff in Hc. apply negb_true_iff.
  destruct (PyStr.isspace_char c) eqn:E; [|reflexivity].
  now rewrite (separator_of_space c E) in Hc.
Qed.

(** The loop over the numbers: the accepted ones are stored, formatted, and
    both kinds are counted. *)
Lemma add_numbers (numbers : list string) :
  (forall w, In w numbers -> w <> "" /\ PyStr.strip w = w) ->
  forall t,
    fold_left GUI.add_number numbers t
    = {| GUI.gui :=
           fold_left GUI.add_entry
             (map format_phone (filter is_phone numbers)) (GUI.gui t);
         GUI.added_count :=
           GUI.added_count t + List.length (filter is_phone numbers);
         GUI.invalid_count :=
           GUI.invalid_count t + List.length (filter rejected numbers) |}.
Proof.
  induction numbers as [|w ws IH]; intros Hw t.
  - simpl. destruct t. simpl. now rewrite !Nat.add_0_r.
  - destruct (Hw w (or_introl eq_refl)) as [Hne Hs].
    cbn [fold_left]. rewrite IH by (intros; apply Hw; now right).
    unfold GUI.add_number, rejected. rewrite Hs.
    destruct w as [|c w]; [now elim Hne|].
    cbn [filter]. destruct (is_phone (String c w)); cbn [negb map fold_left];
      cbn [GUI.gui GUI.added_count GUI.invalid_count List.length];
      f_equal; lia.
Qed.

Lemma add_entries_contacts (numbers : list string) :
  forall g,
    GUI.manual_contacts (fold_left GUI.add_entry numbers g)
    = (GUI.manual_contacts g ++ map (fun n => [("name", n)]) numbers)%list.
Proof.
  induction numbers as [|n ns IH]; intros g; simpl.
  - now rewrite app_nil_r.
  - rewrite IH. simpl. now rewrite <- app_assoc.
Qed.

Lemma add_entries_listbox (numbers : list string) :
  forall g,
    GUI.phones_listbox (fold_left GUI.add_entry numbers g)
    = (GUI.phones_listbox g ++ numbers)%list.
Proof.
  induction numbers as [|n ns IH]; intros g; simpl.
  - now rewrite app_nil_r.
  - rewrite IH. simpl. now rewrite <- app_assoc.
Qed.

Lemma candidates_of_blank (text : string) :
  PyStr.strip text = "" -> GUI.candidates text = [].
Proof.
  intros H. unfold GUI.candidates.
  now rewrite <- (fields_strip GUI.is_separator text separator_of_space), H.
Qed.

(** [add_bulk_phones] stores the accepted candidates of the text. *)
Lemma add_bulk_phones_gui (text : string) (g : GUI.state) :
  fst (GUI.add_bulk_phones text g)
  = fold_left GUI.add_entry
      (map format_phone (filter is_phone (GUI.candidates text))) g.
Proof.
  unfold GUI.add_bulk_phones.
  destruct (PyStr.strip text) as [|c r] eqn:E.
  - now rewrite (candidates_of_blank text E).
  - cbn [fst]. unfold GUI.add_line.
    rewrite (fold_left_concat_map GUI.add_number PyStr.split).
    rewrite <- E, bulk_lines_candidates.
    rewrite add_numbers by apply candidates_no_space.
    reflexivity.
Qed.

(** ** Templates *)

Lemma placeholder_unfold (key : string) :
  placeholder key = String "{" (key ++ "}").
Proof. reflexivity. Qed.

Lemma placeholder_app (key rest : string) :
  placeholder key ++ rest = String "{" (key ++ String "}" rest).
Proof.
  rewrite placeholder_unfold. cbn [append]. now rewrite append_assoc.
Qed.

Lemma brace_free_no_open (s : string) :
  brace_free s = true ->
  PyStr.all_chars (fun c => negb (Ascii.eqb c "{")) s = true.
Proof.
  apply all_chars_weaken. intros c Hc. unfold is_brace in Hc.
  apply negb_true_iff, orb_false_iff in Hc as [Hc _]. now rewrite Hc.
Qed.

(** Between braces, a field name that holds none is read whole. *)
Lemma startswith_field (n : string) :
  forall k rest,
    brace_free n = true -> brace_free k = true ->
    PyStr.startswith (n ++ String "}" rest) (k ++ "}") = true ->
    n = k.
Proof.
  unfold brace_free.
  induction n as [|c n IH]; intros [|d k] rest Hn Hk H;
    cbn [append PyStr.startswith PyStr.all_chars] in *.
  - reflexivity.
  - apply andb_true_iff in H as [H _]. apply Ascii.eqb_eq in H. subst d.
    discriminate.
  - apply andb_true_iff in H as [H _]. apply Ascii.eqb_eq in H. subst c.
    discriminate.
  - apply andb_true_iff in H as [Hcd H]. apply Ascii.eqb_eq in Hcd. subst d.
    apply andb_true_iff in Hn as [_ Hn]. apply andb_true_iff in Hk as [_ Hk].
    f_equal. exact (IH k rest Hn Hk H).
Qed.

(** The placeholder of another field is copied as it is. *)
Lemma replace_other_field (n k value rest : string) :
  brace_free n = true -> brace_free k = true -> n <> k ->
  PyStr.replace_from 0 (placeholder k) value (placeholder n ++ rest)
  = placeholder n ++ PyStr.replace_from 0 (placeholder k) value rest.
Proof.
  intros Hn Hk Hnk. rewrite !placeholder_app, placeholder_unfold.
  cbn [PyStr.replace_from PyStr.startswith]. rewrite Ascii.eqb_refl.
  cbn [andb].
  destruct (PyStr.startswith (n ++ String "}" rest) (k ++ "}")) eqn:E.
  - now elim Hnk; apply (startswith_field n k rest).
  - f_equal.
    rewrite (replace_from_copy "{" (k ++ "}") value n _ (brace_free_no_open n Hn)).
    apply f_equal.
    exact (replace_from_copy "{" (k ++ "}") value "}" rest eq_refl).
Qed.

(** Replacing a placeholder in a rendered template fills the segments of
    that field and no other. *)
Lemma replace_render (key value : string) (t : list segment) :
  brace_free key = true ->
  forallb segment_brace_free t = true ->
  PyStr.replace (render t) (placeholder key) value
  = render (map (fill key value) t).
Proof.
  intros Hk. unfold PyStr.replace. rewrite placeholder_unfold.
  rewrite <- placeholder_unfold.
  induction t as [|g t IH]; intros Ht; [reflexivity|].
  cbn [forallb] in Ht. apply andb_true_iff in Ht as [Hg Ht].
  specialize (IH Ht). cbn [render map].
  destruct g as [text|n]; cbn [render_segment fill segment_brace_free] in *.
  - rewrite placeholder_unfold in *.
    rewrite (replace_from_copy "{" _ value text _ (brace_free_no_open text Hg)).
    now rewrite IH.
  - destruct (String.eqb_spec n key) as [->|Hn].
    + cbn [render_segment]. rewrite <- IH.
      rewrite placeholder_unfold. apply replace_from_match.
    + cbn [render_segment]. rewrite <- IH.
      now apply replace_other_field.
Qed.

Lemma fill_brace_free (key value : string) (t : list segment) :
  brace_free value = true ->
  forallb segment_brace_free t = true ->
  forallb segment_brace_free (map (fill key value) t) = true.
Proof.
  intros Hv. induction t as [|g t IH]; intros Ht; [reflexivity|].
  cbn [forallb map] in *. apply andb_true_iff in Ht as [Hg Ht].
  rewrite (IH Ht), andb_true_r.
  destruct g as [text|n]; [exact Hg|]. cbn [fill].
  now destruct (String.eqb n key).
Qed.

Lemma substitute_field_render (t : list segment) (item : string * string) :
  item_brace_free item = true ->
  forallb segment_brace_free t = true ->
  substitute_field (render t) item
  = render (map (fun g => fill_item g item) t).
Proof.
  destruct item as [key value]. unfold item_brace_free, fill_item.
  cbn [fst snd substitute_field]. intros Hi Ht.
  apply andb_true_iff in Hi as [Hk Hv].
  destruct (String.eqb key "name"); cbn [negb andb].
  - now rewrite map_id.
  - rewrite placeholder_unfold, guarded_replace, <- placeholder_unfold.
    now apply replace_render.
Qed.

Lemma fill_item_brace_free (t : list segment) (item : string * string) :
  item_brace_free item = true ->
  forallb segment_brace_free t = true ->
  forallb segment_brace_free (map (fun g => fill_item g item) t) = true.
Proof.
  destruct item as [key value]. unfold item_brace_free, fill_item.
  cbn [fst snd]. intros Hi Ht. apply andb_true_iff in Hi as [_ Hv].
  destruct (String.eqb key "name").
  - now rewrite map_id.
  - now apply fill_brace_free.
Qed.

(** The loop over the items, seen segment by segment. *)
Lemma substitute_fields_render (c : contact) :
  forall t,
    forallb item_brace_free c = true ->
    forallb segment_brace_free t = true ->
    fold_left substitute_field c (render t)
    = render (map (fun g => fold_left fill_item c g) t).
Proof.
  induction c as [|item c IH]; intros t Hc Ht; cbn [fold_left].
  - now rewrite map_id.
  - cbn [forallb] in Hc. apply andb_true_iff in Hc as [Hi Hc].
    rewrite (substitute_field_render t item Hi Ht).
    rewrite (IH _ Hc (fill_item_brace_free t item Hi Ht)).
    now rewrite map_map.
Qed.

Lemma fill_items_plain (c : contact) (text : string) :
  fold_left fill_item c (Plain text) = Plain text.
Proof.
  induction c as [|[key value] c IH]; cbn [fold_left fill_item fill];
    [reflexivity|].
  now destruct (String.eqb key "name").
Qed.

Lemma fill_items_field (c : contact) (n : string) :
  n <> "name" ->
  fold_left fill_item c (Field n)
  = match getitem c n with
    | Some value => Plain value
    | None => Field n
    end.
Proof.
  intros Hn. induction c as [|[key value] c IH];
    cbn [fold_left fill_item fill getitem]; [reflexivity|].
  rewrite (String.eqb_sym key n).
  destruct (String.eqb_spec n key) as [->|Hk].
  - apply String.eqb_neq in Hn. rewrite Hn. apply fill_items_plain.
  - destruct (String.eqb key "name"); exact IH.
Qed.

Lemma render_resolve (c : contact) (f : segment -> segment) (t : list segment) :
  (forall g, render_segment (f g) = resolve_segment c g) ->
  render (map f t) = resolve c t.
Proof.
  intros H. induction t as [|g t IH]; cbn [render map resolve];
    [reflexivity|].
  now rewrite H, IH.
Qed.

Lemma getitem_brace_free (c : contact) (key value : string) :
  forallb item_brace_free c = true ->
  getitem c key = Some value ->
  brace_free value = true.
Proof.
  induction c as [|[k v] c IH]; cbn [getitem forallb]; [discriminate|].
  intros Hc Hg. apply andb_true_iff in Hc as [Hi Hc].
  destruct (String.eqb k key); [|exact (IH Hc Hg)].
  injection Hg as <-. unfold item_brace_free in Hi.
  now apply andb_true_iff in Hi as [_ Hv].
Qed.

(** C1 (as amended) -- Template substitution.  For every template made of
    plain text and [{field}] placeholders, text and field names holding no
    brace, and every contact record that has the field [name] and whose
    field names and values hold no brace, the message [send_bulk_messages]
    sends is the template with each placeholder of a field of the contact
    replaced by that field's value ([{name}] by the name) and every other
    placeholder left as written. *)
Theorem template_substitution (t : list segment) (c : contact)
    (contact_name : string) :
  getitem c "name" = Some contact_name ->
  forallb segment_brace_free t = true ->
  forallb item_brace_free c = true ->
  personalize (render t) contact_name c = resolve c t.
Proof.
  intros Hname Ht Hc. unfold personalize.
  pose proof (getitem_brace_free c "name" contact_name Hc Hname) as Hv.
  change "{name}" with (placeholder "name").
  rewrite placeholder_unfold, guarded_replace, <- placeholder_unfold.
  rewrite (replace_render "name" contact_name t eq_refl Ht).
  rewrite (substitute_fields_render c _ Hc
             (fill_brace_free "name" contact_name t Hv Ht)).
  rewrite map_map. apply render_resolve.
  intros [text|n]; cbn [fill resolve_segment].
  - now rewrite fill_items_plain.
  - destruct (String.eqb_spec n "name") as [->|Hn].
    + now rewrite fill_items_plain, Hname.
    + rewrite (fill_items_field c n Hn).
      now destruct (getitem c n).
Qed.

(** The example of the specification: no field [id], so [{id}] stays. *)
Lemma template_substitution_witness :
  let t := [Plain "Hi "; Field "name"; Plain ", order "; Field "id";
            Plain " ready"] in
  let c := [("name", "Ana")] in
  getitem c "name" = Some "Ana"
  /\ forallb segment_brace_free t = true
  /\ forallb item_brace_free c = true
  /\ render t = "Hi {name}, order {id} ready"
  /\ personalize "Hi {name}, order {id} ready" "Ana" c
     = "Hi Ana, order {id} ready".
Proof.
  cbv zeta. do 4 (split; [reflexivity|]).
  exact (template_substitution
           [Plain "Hi "; Field "name"; Plain ", order "; Field "id";
            Plain " ready"]
           [("name", "Ana")] "Ana" eq_refl eq_refl eq_refl).
Defined.

(** C1 as stated fails: the replacements are made one after the other, so a
    value that holds the placeholder of a later field is itself rewritten.
    With the record [name = Ana, a = {b}, b = X] the template [{a}] gives
    [X], not the value [{b}] of the field [a]. *)
Lemma template_substitution_counterexample :
  let c := [("name", "Ana"); ("a", "{b}"); ("b", "X")] in
  getitem c "name" = Some "Ana"
  /\ personalize (render [Field "a"]) "Ana" c = "X"
  /\ resolve c [Field "a"] = "{b}"
  /\ personalize (render [Field "a"]) "Ana" c <> resolve c [Field "a"].
Proof.
  cbv zeta. do 3 (split; [reflexivity|]). discriminate.
Qed.









(** ** Runs *)

Lemma follows_refl (P : event -> Prop) (s : sender) : follows P s s.
Proof.
  split; [exists []; split; [now rewrite app_nil_r | constructor] | tauto].
Qed.

Lemma follows_trans (P : event -> Prop) (s1 s2 s3 : sender) :
  follows P s1 s2 -> follows P s2 s3 -> follows P s1 s3.
Proof.
  intros [[e1 [T1 F1]] [D1 C1]] [[e2 [T2 F2]] [D2 C2]].
  split; [|split].
  - exists (e1 ++ e2)%list. split.
    + now rewrite T2, T1, app_assoc.
    + apply Forall_app. now split.
  - congruence.
  - auto.
Qed.

Lemma follows_step (P : event -> Prop) (env : environment) (ev : event)
    (s : sender) :
  P ev -> follows P s (step env ev s).
Proof.
  intros H. split; [|split]; cbn.
  - exists [ev]. split; [reflexivity | now constructor].
  - reflexivity.
  - now intros ->.
Qed.

Lemma follows_weaken (P Q : event -> Prop) (s s' : sender) :
  (forall ev, P ev -> Q ev) -> follows P s s' -> follows Q s s'.
Proof.
  intros H [[evs [T F]] R]. split; [|exact R].
  exists evs. split; [exact T|]. revert F. apply Forall_impl, H.
Qed.

Section Emits.

Variable P : event -> Prop.

Lemma emits_ret {A : Type} (a : A) : emits P (ret a).
Proof. intros env s. apply follows_refl. Qed.

Lemma emits_raise {A : Type} (e : exn) : emits P (@raise A e).
Proof. intros env s. apply follows_refl. Qed.

Lemma emits_bind {A B : Type} (m : M A) (k : A -> M B) :
  emits P m -> (forall a, emits P (k a)) -> emits P (bind m k).
Proof.
  intros Hm Hk env s. unfold bind. specialize (Hm env s).
  destruct (m env s) as [[a|e] s1]; cbn [snd] in *; [|exact Hm].
  exact (follows_trans P s s1 _ Hm (Hk a env s1)).
Qed.

Lemma emits_try_except {A : Type} (body : M A) (handler : exn -> M A) :
  emits P body -> (forall e, emits P (handler e)) ->
  emits P (try_except body handler).
Proof.
  intros Hm Hk env s. unfold try_except. specialize (Hm env s).
  destruct (body env s) as [[a|e] s1]; cbn [snd] in *; [exact Hm|].
  exact (follows_trans P s s1 _ Hm (Hk e env s1)).
Qed.

Lemma emits_attempt {A : Type} (body : M A) :
  emits P body -> emits P (attempt body).
Proof.
  intros Hm env s. unfold attempt. specialize (Hm env s).
  now destruct (body env s).
Qed.

Lemma emits_call {T : Type} (c : command T) :
  (forall r, P (Browser c r)) -> emits P (call c).
Proof. intros H env s. apply follows_step, H. Qed.

Lemma emits_driver_call {T : Type} (c : command T) :
  (forall r, P (Browser c r)) -> emits P (driver_call c).
Proof.
  intros H env s. unfold driver_call.
  destruct (driver s); [apply follows_step, H | apply follows_refl].
Qed.

Lemma emits_sleep (seconds : nat) : P (Sleep seconds) -> emits P (sleep seconds).
Proof. intros H env s. now apply follows_step. Qed.

Lemma emits_log (line : log_line) : P (Log line) -> emits P (log line).
Proof. intros H env s. now apply follows_step. Qed.

Lemma emits_get_cancel_requested : emits P get_cancel_requested.
Proof. intros env s. apply follows_refl. Qed.

Lemma emits_get_driver : emits P get_driver.
Proof. intros env s. apply follows_refl. Qed.

Lemma emits_set_is_running (b : bool) : emits P (set_is_running b).
Proof.
  intros env s. split; [|split; [reflexivity | trivial]].
  exists []. cbn. split; [now rewrite app_nil_r | constructor].
Qed.

End Emits.

Lemma emits_weaken {A : Type} (P Q : event -> Prop) (m : M A) :
  (forall ev, P ev -> Q ev) -> emits P m -> emits Q m.
Proof. intros H Hm env s. exact (follows_weaken P Q _ _ H (Hm env s)). Qed.

Create HintDb emits.
#[local] Hint Resolve emits_ret emits_raise emits_try_except emits_attempt
  emits_call emits_driver_call emits_sleep emits_log
  emits_get_cancel_requested emits_get_driver emits_set_is_running : emits.

(** Goes through a computation, leaving nothing when each of its events
    satisfies the predicate by computation. *)
Ltac emits_step :=
  match goal with
  | |- emits _ (bind _ _) => apply emits_bind; [|intros ?]
  | |- emits _ (try_except _ _) => apply emits_try_except; [|intros ?]
  | |- emits _ (attempt _) => apply emits_attempt
  | |- emits _ (call _) => apply emits_call; intros ?
  | |- emits _ (driver_call _) => apply emits_driver_call; intros ?
  | |- emits _ (sleep _) => apply emits_sleep
  | |- emits _ (log _) => apply emits_log
  | |- emits _ (if ?b then _ else _) => destruct b
  | |- emits _ (match ?x with _ => _ end) => destruct x
  | |- emits _ _ => solve [eauto with emits]
  | |- _ => exact I
  end.

Ltac emits_all := repeat emits_step.

(** ** What the operations on the page add to a run *)

Lemma emits_locate_box (xpaths : list string) :
  forall box, emits page_event (locate_box xpaths box).
Proof.
  induction xpaths as [|xpath rest IH]; intros box; cbn [locate_box];
    emits_all.
Qed.

Lemma emits_click_first (xpath : string) : emits page_event (click_first xpath).
Proof. unfold click_first. emits_all. Qed.

Lemma emits_try_patterns (patterns : list string) :
  emits page_event (try_patterns patterns).
Proof.
  pose proof emits_click_first.
  induction patterns as [|xpath rest IH]; cbn [try_patterns]; emits_all.
Qed.

Lemma emits_open_direct (contact : string) :
  emits page_event (open_direct contact).
Proof. unfold open_direct. emits_all. Qed.

Lemma emits_open_chat (contact : string) : emits page_event (open_chat contact).
Proof.
  pose proof emits_try_patterns. pose proof emits_open_direct.
  unfold open_chat. emits_all.
Qed.

Lemma emits_type_contact (box : element) (contact : string) :
  emits page_event (type_contact box contact).
Proof. unfold type_contact. emits_all. Qed.

Lemma emits_search_contact (contact : string) :
  emits page_event (search_contact contact).
Proof.
  pose proof emits_locate_box. pose proof emits_type_contact.
  pose proof emits_open_chat.
  unfold search_contact, search_contact_body. emits_all.
Qed.

Lemma emits_dismiss_popup (buttons : list element) :
  emits page_event (dismiss_popup buttons).
Proof.
  induction buttons as [|button rest IH]; cbn [dismiss_popup]; emits_all.
Qed.

Lemma emits_type_lines (box : element) (lines : list string) :
  emits page_event (type_lines box lines).
Proof.
  induction lines as [|line rest IH]; cbn [type_lines]; emits_all.
Qed.

Lemma emits_send_message (message : string) :
  emits page_event (send_message message).
Proof.
  pose proof emits_locate_box. pose proof emits_dismiss_popup.
  pose proof emits_type_lines.
  unfold send_message, send_message_body. emits_all.
Qed.

Lemma emits_wait_between (seconds : nat) :
  emits page_event (wait_between seconds).
Proof.
  induction seconds as [|k IH]; cbn [wait_between]; emits_all.
Qed.

(** ** The operations that never raise *)

Lemma never_raises_guarded (body : M bool) (line : exn -> log_line) :
  never_raises
    (cancel <- get_cancel_requested;;
     if cancel then ret false
     else try_except body (fun e => log (line e);; ret false)).
Proof.
  intros env s. unfold bind, get_cancel_requested, try_except, ret, log.
  destruct (cancel_requested s); [now exists false|].
  destruct (body env s) as [[b|e] s1]; [now exists b | now exists false].
Qed.

Lemma never_raises_search_contact (contact : string) :
  never_raises (search_contact contact).
Proof. apply never_raises_guarded. Qed.

Lemma never_raises_send_message (message : string) :
  never_raises (send_message message).
Proof. apply never_raises_guarded. Qed.

Lemma never_raises_locate_box (xpaths : list string) :
  forall box, never_raises (locate_box xpaths box).
Proof.
  induction xpaths as [|xpath rest IH]; intros box env s; cbn [locate_box].
  - now exists box.
  - unfold bind, attempt.
    destruct (driver_call (WaitPresence xpath) env s) as [[e|x] s1];
      [|apply IH].
    destruct (call (IsDisplayed e) env s1) as [[[]|x] s2];
      [now exists (Some e) | apply IH | apply IH].
Qed.

Lemma never_raises_try_patterns (patterns : list string) :
  never_raises (try_patterns patterns).
Proof.
  induction patterns as [|xpath rest IH]; intros env s; cbn [try_patterns].
  - now exists None.
  - unfold bind, attempt, get_cancel_requested.
    destruct (cancel_requested s); [now exists (Some false)|].
    destruct (click_first xpath env s) as [[[]|x] s1];
      [now exists (Some true) | apply IH | apply IH].
Qed.

Lemma never_raises_wait_between (seconds : nat) :
  never_raises (wait_between seconds).
Proof.
  induction seconds as [|k IH]; intros env s; cbn [wait_between].
  - now exists tt.
  - unfold bind, get_cancel_requested, sleep.
    destruct (cancel_requested s); [now exists tt | apply IH].
Qed.

Lemma bind_returns {A B : Type} (m : M A) (k : A -> M B) (env : environment)
    (s s1 : sender) (a : A) :
  m env s = (Returns a, s1) -> bind m k env s = k a env s1.
Proof. intros H. unfold bind. now rewrite H. Qed.

Lemma bind_raises {A B : Type} (m : M A) (k : A -> M B) (env : environment)
    (s s1 : sender) (e : exn) :
  m env s = (Raises e, s1) -> bind m k env s = (Raises e, s1).
Proof. intros H. unfold bind. now rewrite H. Qed.

(** Where a run of [m] ends, the driver handle is the one it started
    with. *)
Lemma emits_driver {A : Type} (P : event -> Prop) (m : M A)
    (env : environment) (s s' : sender) (r : outcome A) :
  emits P m -> m env s = (r, s') -> driver s' = driver s.
Proof.
  intros Hm E. specialize (Hm env s). rewrite E in Hm. apply Hm.
Qed.

(** Without a browser no box is located and nothing happens. *)
Lemma locate_box_no_driver (xpaths : list string) (env : environment)
    (s : sender) :
  driver s = None ->
  forall box, locate_box xpaths box env s = (Returns box, s).
Proof.
  intros H. induction xpaths as [|xpath rest IH]; intros box;
    cbn [locate_box]; [reflexivity|].
  unfold bind, attempt, driver_call. rewrite H. apply IH.
Qed.

(** ** [search_contact] *)

(** C10 -- Entry check of the cancellation flag.  When [cancel_requested]
    is set as [search_contact] or [send_message] is entered, the operation
    returns [False] at once: the sender and its trace are as before, so
    nothing was sent to the browser. *)
Theorem cancelled_at_entry (contact message : string) (env : environment)
    (s : sender) :
  cancel_requested s = true ->
  search_contact contact env s = (Returns false, s)
  /\ send_message message env s = (Returns false, s).
Proof.
  intros H. unfold search_contact, send_message, bind, get_cancel_requested.
  now rewrite H.
Qed.

Lemma cancelled_at_entry_witness :
  cancel_requested cancelling = true
  /\ search_contact "Ana" no_match cancelling = (Returns false, cancelling)
  /\ send_message "Hello" no_match cancelling = (Returns false, cancelling).
Proof.
  split; [reflexivity|].
  apply (cancelled_at_entry "Ana" "Hello" no_match cancelling). reflexivity.
Defined.

(** Once the box is found and the identifier typed, the result of
    [search_contact] is read off the inner [try]. *)
Lemma search_contact_opening (contact : string) (env : environment)
    (s s1 s2 : sender) (box : element) :
  cancel_requested s = false ->
  locate_box search_xpath None env s = (Returns (Some box), s1) ->
  type_contact box contact env s1 = (Returns tt, s2) ->
  search_contact contact env s
  = match open_chat contact env s2 with
    | (Returns (Some b), s') => (Returns b, s')
    | (Returns None, s') =>
        (Returns false, step env (Log (CouldNotFindContact contact)) s')
    | (Raises x, s') =>
        (Returns false, step env (Log (ErrorSearching contact x)) s')
    end.
Proof.
  intros Hcancel Hbox Htype.
  unfold search_contact, search_contact_body, try_except, bind,
    get_cancel_requested.
  rewrite Hcancel, Hbox. cbv beta iota. rewrite Htype. cbv beta iota.
  destruct (open_chat contact env s2) as [[[b|]|x] s']; reflexivity.
Qed.

(** Once every strategy has failed, the inner [try] is left the way the
    direct URL ends: what it returns is returned, a timeout or a missing
    element is passed over, any other exception goes on. *)
Lemma open_chat_direct (contact : string) (env : environment)
    (s2 s3 : sender) :
  try_patterns (xpath_patterns contact) env s2 = (Returns None, s3) ->
  open_chat contact env s2
  = match open_direct contact env s3 with
    | (Returns r, s') => (Returns r, s')
    | (Raises x, s') =>
        match x with
        | TimeoutException _ | NoSuchElementException _ => (Returns None, s')
        | _ => (Raises x, s')
        end
    end.
Proof.
  intros Htry. unfold open_chat, try_except, bind. rewrite Htry.
  destruct (open_direct contact env s3) as [[r|x] s']; [reflexivity|].
  destruct x; reflexivity.
Qed.

(** After the strategies, an exception of the direct URL is reported by
    one line and [search_contact] returns [False]. *)
Lemma search_contact_direct_raises (contact : string) (env : environment)
    (s s1 s2 s3 s4 : sender) (box : element) (x : exn) :
  cancel_requested s = false ->
  locate_box search_xpath None env s = (Returns (Some box), s1) ->
  type_contact box contact env s1 = (Returns tt, s2) ->
  try_patterns (xpath_patterns contact) env s2 = (Returns None, s3) ->
  open_direct contact env s3 = (Raises x, s4) ->
  search_contact contact env s
  = (Returns false, step env (Log (reported contact x)) s4).
Proof.
  intros Hcancel Hbox Htype Htry Hdirect.
  rewrite (search_contact_opening _ _ _ _ _ _ Hcancel Hbox Htype).
  rewrite (open_chat_direct _ _ _ _ Htry), Hdirect.
  destruct x; reflexivity.
Qed.

(** An exception of the clearing or of the typing reaches the outer
    handler. *)
Lemma search_contact_typing_raises (contact : string) (env : environment)
    (s s1 s2 : sender) (box : element) (x : exn) :
  cancel_requested s = false ->
  locate_box search_xpath None env s = (Returns (Some box), s1) ->
  type_contact box contact env s1 = (Raises x, s2) ->
  search_contact contact env s
  = (Returns false, step env (Log (ErrorSearching contact x)) s2).
Proof.
  intros Hcancel Hbox Htype.
  unfold search_contact, search_contact_body, try_except, bind,
    get_cancel_requested.
  rewrite Hcancel, Hbox. cbv beta iota. rewrite Htype. reflexivity.
Qed.

(** C4 (as amended) -- [search_contact] is a total boolean operation.
    For every identifier and every behaviour of the browser no exception
    leaves [search_contact].  An exception raised while a box is looked up
    (by the lookup or by [is_displayed]) or while a strategy looks up and
    clicks a result is swallowed: the run goes on with the next XPath from
    the state the failed command left, with no log line.  After the
    strategies, a timeout or a missing element of the direct URL (of the
    navigation or of the wait) is passed over and the contact is reported
    as not found; any other exception there, and any exception of the
    clearing or of the typing, reaches the outer handler, which logs it;
    in each case [search_contact] returns [False]. *)
Theorem search_contact_never_raises (contact : string) (env : environment)
    (s : sender) :
  (exists b, fst (search_contact contact env s) = Returns b)
  /\ (forall xpaths box, exists r, fst (locate_box xpaths box env s) = Returns r)
  /\ (forall patterns, exists r, fst (try_patterns patterns env s) = Returns r)
  /\ (forall e, fst (open_chat contact env s) = Raises e ->
        match e with
        | TimeoutException _ | NoSuchElementException _ => False
        | _ => True
        end)
  /\ (cancel_requested s = false ->
      match search_contact_body contact env s with
      | (Returns b, s1) => search_contact contact env s = (Returns b, s1)
      | (Raises e, s1) =>
          search_contact contact env s
          = (Returns false, step env (Log (ErrorSearching contact e)) s1)
      end)
  /\ (forall xpath rest box d x,
        driver s = Some d ->
        respond env element (clock s) (WaitPresence xpath) = Raises x ->
        locate_box (xpath :: rest) box env s
        = locate_box rest box env
            (step env (Browser (WaitPresence xpath) (Raises x)) s))
  /\ (forall xpath rest box d e x,
        driver s = Some d ->
        respond env element (clock s) (WaitPresence xpath) = Returns e ->
        respond env bool (S (clock s)) (IsDisplayed e) = Raises x ->
        locate_box (xpath :: rest) box env s
        = locate_box rest (Some e) env
            (step env (Browser (IsDisplayed e) (Raises x))
               (step env (Browser (WaitPresence xpath) (Returns e)) s)))
  /\ (forall xpath rest d x,
        cancel_requested s = false ->
        driver s = Some d ->
        respond env (list element) (clock s) (FindElements xpath) = Raises x ->
        try_patterns (xpath :: rest) env s
        = try_patterns rest env
            (step env (Browser (FindElements xpath) (Raises x)) s))
  /\ (forall xpath rest d e others x,
        cancel_requested s = false ->
        driver s = Some d ->
        respond env (list element) (clock s) (FindElements xpath)
        = Returns (e :: others) ->
        respond env unit (S (clock s)) (Click e) = Raises x ->
        try_patterns (xpath :: rest) env s
        = try_patterns rest env
            (step env (Browser (Click e) (Raises x))
               (step env (Browser (FindElements xpath) (Returns (e :: others)))
                  s)))
  /\ (forall box s1,
        cancel_requested s = false ->
        locate_box search_xpath None env s = (Returns (Some box), s1) ->
        (forall x s2,
           call (Clear box) env s1 = (Raises x, s2) ->
           search_contact contact env s
           = (Returns false, step env (Log (ErrorSearching contact x)) s2))
        /\ (forall x s2 s3,
              call (Clear box) env s1 = (Returns tt, s2) ->
              call (SendKeys box
                      (Text (if is_phone contact
                             then formatted_contact contact else contact)))
                env s2
              = (Raises x, s3) ->
              search_contact contact env s
              = (Returns false, step env (Log (ErrorSearching contact x)) s3))
        /\ (forall s2 s3,
              type_contact box contact env s1 = (Returns tt, s2) ->
              try_patterns (xpath_patterns contact) env s2
              = (Returns None, s3) ->
              is_phone contact = true ->
              7 < String.length contact ->
              (forall x s4,
                 driver_call (Get (deep_link (PyStr.replace contact "+" "")))
                   env s3
                 = (Raises x, s4) ->
                 search_contact contact env s
                 = (Returns false, step env (Log (reported contact x)) s4))
              /\ (forall x s4 s5,
                    driver_call
                      (Get (deep_link (PyStr.replace contact "+" ""))) env s3
                    = (Returns tt, s4) ->
                    driver_call (WaitPresence message_box_marker) env s4
                    = (Raises x, s5) ->
                    search_contact contact env s
                    = (Returns false,
                       step env (Log (reported contact x)) s5)))).
Proof.
  split; [apply never_raises_search_contact|].
  split; [intros; apply never_raises_locate_box|].
  split; [intros; apply never_raises_try_patterns|].
  split.
  { intros e. unfold open_chat, try_except.
    destruct (bind _ _ env s) as [[r|x] s1]; [discriminate|].
    destruct x; cbn; intros E; try discriminate; injection E as <-; exact I. }
  split.
  { intros H.
    assert (E : search_contact contact env s
                = try_except (search_contact_body contact)
                    (fun e => log (ErrorSearching contact e);; ret false)
                    env s)
      by (unfold search_contact, bind, get_cancel_requested; now rewrite H).
    rewrite E. unfold try_except.
    now destruct (search_contact_body contact env s) as [[b|e] s1]. }
  split.
  { intros xpath rest box d x Hd Hr. cbn [locate_box].
    unfold bind at 1, attempt, driver_call, call. now rewrite Hd, Hr. }
  split.
  { intros xpath rest box d e x Hd Hr Hx. cbn [locate_box].
    unfold bind at 1, attempt at 1, driver_call, call at 1. rewrite Hd, Hr.
    unfold bind at 1, attempt, call. cbn [clock step]. now rewrite Hx. }
  split.
  { intros xpath rest d x Hcancel Hd Hr. cbn [try_patterns].
    unfold bind at 1, get_cancel_requested. rewrite Hcancel.
    unfold bind at 1, attempt, click_first, bind at 1, driver_call, call.
    now rewrite Hd, Hr. }
  split.
  { intros xpath rest d e others x Hcancel Hd Hr Hx. cbn [try_patterns].
    unfold bind at 1, get_cancel_requested. rewrite Hcancel.
    unfold bind at 1, attempt, click_first, bind at 1, driver_call, call at 1.
    rewrite Hd, Hr. unfold bind at 1, call. cbn [clock step].
    now rewrite Hx. }
  intros box s1 Hcancel Hbox. split; [|split].
  - intros x s2 Hclear.
    apply (search_contact_typing_raises _ _ _ _ _ _ _ Hcancel Hbox).
    unfold type_contact. now rewrite (bind_raises _ _ _ _ _ _ Hclear).
  - intros x s2 s3 Hclear Hkeys.
    apply (search_contact_typing_raises _ _ _ _ _ _ _ Hcancel Hbox).
    unfold type_contact. rewrite (bind_returns _ _ _ _ _ _ Hclear).
    destruct (is_phone contact);
      unfold bind at 1; now rewrite (bind_raises _ _ _ _ _ _ Hkeys).
  - intros s2 s3 Htype Htry Hphone Hlen.
    apply Nat.ltb_lt in Hlen.
    assert (Hopen : open_direct contact
                    = (driver_call
                         (Get (deep_link (PyStr.replace contact "+" "")));;
                       driver_call (WaitPresence message_box_marker);;
                       sleep 2;;
                       ret (Some true)))
      by (unfold open_direct; now rewrite Hphone, Hlen).
    split.
    + intros x s4 Hget.
      apply (search_contact_direct_raises _ _ _ _ _ _ _ _ _
               Hcancel Hbox Htype Htry).
      rewrite Hopen. now rewrite (bind_raises _ _ _ _ _ _ Hget).
    + intros x s4 s5 Hget Hwait.
      apply (search_contact_direct_raises _ _ _ _ _ _ _ _ _
               Hcancel Hbox Htype Htry).
      rewrite Hopen, (bind_returns _ _ _ _ _ _ Hget).
      now rewrite (bind_raises _ _ _ _ _ _ Hwait).
Qed.

Lemma search_contact_never_raises_witness :
  (cancel_requested started = false
   /\ search_contact "Ana" slow_start started
      = search_contact_body "Ana" slow_start started)
  /\ (respond slow_start element (clock started)
        (WaitPresence (nth 0 search_xpath ""))
      = Raises (TimeoutException "timeout")
      /\ locate_box search_xpath None slow_start started
         = locate_box (tl search_xpath) None slow_start
             (step slow_start
                (Browser (WaitPresence (nth 0 search_xpath ""))
                   (Raises (TimeoutException "timeout")))
                started))
  /\ (is_phone "14155552671" = true
      /\ 7 < String.length "14155552671"
      /\ exists s4,
           search_contact "14155552671" no_navigation started
           = (Returns false,
              step no_navigation
                (Log (ErrorSearching "14155552671"
                        (OtherException "net::ERR_INTERNET_DISCONNECTED")))
                s4)).
Proof.
  split; [|split].
  - split; [reflexivity|].
    pose proof (search_contact_never_raises "Ana" slow_start started)
      as (_ & _ & _ & _ & H & _).
    specialize (H eq_refl).
    destruct (search_contact_body "Ana" slow_start started) as [[b|e] s1] eqn:E.
    + exact H.
    + discriminate E.
  - split; [reflexivity|].
    pose proof (search_contact_never_raises "Ana" slow_start started)
      as (_ & _ & _ & _ & _ & H & _).
    exact (H _ (tl search_xpath) None 0 _ eq_refl eq_refl).
  - split; [reflexivity|]. split; [cbn; lia|].
    pose proof (search_contact_never_raises "14155552671" no_navigation
                  started)
      as (_ & _ & _ & _ & _ & _ & _ & _ & _ & H).
    destruct (H 1 _ eq_refl eq_refl) as (_ & _ & H').
    destruct (H' _ _ eq_refl eq_refl eq_refl ltac:(cbn; lia)) as [Hget _].
    eexists. exact (Hget _ _ eq_refl).
Defined.

(** C4 as stated fails: the first lookup of the search box raises a
    timeout, which is swallowed; the second XPath finds the box, the first
    strategy finds and clicks the contact, and [search_contact] returns
    [True] with no line logged for the exception. *)
Lemma search_contact_swallows_exception :
  fst (search_contact "Ana" slow_start started) = Returns true
  /\ trace (snd (search_contact "Ana" slow_start started))
     = [ Browser (WaitPresence (nth 0 search_xpath ""))
           (Raises (TimeoutException "timeout"));
         Browser (WaitPresence (nth 1 search_xpath "")) (Returns 1);
         Browser (IsDisplayed 1) (Returns true);
         Browser (Clear 1) (Returns tt);
         Browser (SendKeys 1 (Text "Ana")) (Returns tt);
         Log (SearchingContact "Ana");
         Sleep 2;
         Browser (FindElements (nth 0 (xpath_patterns "Ana") ""))
           (Returns [7]);
         Browser (Click 7) (Returns tt);
         Sleep 1 ].
Proof. split; reflexivity. Qed.

(** C3 (as amended) -- Deep-link fallback.  For every phone-like
    identifier, once the search box was found, the identifier typed, and
    every strategy failed to click a result: when the identifier is longer
    than 7 characters, the next thing [search_contact] does is to navigate
    to the deep link of the number without its [+], and it reports success
    exactly when the navigation returned and the wait for the message-input
    marker that follows it returned too; when it has 7 characters or fewer
    there is no fallback: the only thing that follows is the line saying
    the contact was not found, and [search_contact] returns [False]. *)
Theorem deep_link_fallback (contact : string) (env : environment)
    (s s1 s2 s3 : sender) (box : element) :
  cancel_requested s = false ->
  is_phone contact = true ->
  locate_box search_xpath None env s = (Returns (Some box), s1) ->
  type_contact box contact env s1 = (Returns tt, s2) ->
  try_patterns (xpath_patterns contact) env s2 = (Returns None, s3) ->
  (7 < String.length contact ->
   exists (b : bool) (s' : sender) (navigation : outcome unit)
          (rest : list event),
     search_contact contact env s = (Returns b, s')
     /\ trace s'
        = (trace s3
             ++ Browser (Get (deep_link (remove_char "+" contact))) navigation
             :: rest)%list
     /\ (b = true
         <-> navigation = Returns tt
             /\ exists e,
                  rest = [ Browser (WaitPresence message_box_marker)
                             (Returns e);
                           Sleep 2 ]))
  /\ (String.length contact <= 7 ->
      search_contact contact env s
      = (Returns false, step env (Log (CouldNotFindContact contact)) s3)
      /\ trace (snd (search_contact contact env s))
         = (trace s3 ++ [Log (CouldNotFindContact contact)])%list).
Proof.
  intros Hcancel Hphone Hbox Htype Htry. split.
  - intros Hlen.
    assert (Hd : exists d, driver s3 = Some d).
    { rewrite (emits_driver _ _ _ _ _ _ (emits_try_patterns _) Htry).
      rewrite (emits_driver _ _ _ _ _ _ (emits_type_contact _ _) Htype).
      rewrite (emits_driver _ _ _ _ _ _ (emits_locate_box _ _) Hbox).
      destruct (driver s) as [d|] eqn:E; [now exists d|].
      rewrite (locate_box_no_driver search_xpath env s E None) in Hbox.
      discriminate. }
    destruct Hd as [d Hd].
    apply Nat.ltb_lt in Hlen.
    unfold search_contact, search_contact_body, open_chat, try_except, bind,
      get_cancel_requested.
    rewrite Hcancel, Hbox. cbv beta iota. rewrite Htype. cbv beta iota.
    rewrite Htry. cbv beta iota.
    unfold open_direct. rewrite Hphone, Hlen. cbn [andb].
    rewrite (replace_char_empty "+" contact).
    set (url := deep_link (remove_char "+" contact)).
    unfold bind, driver_call, call, sleep, log, ret, raise. rewrite Hd.
    destruct (respond env unit (clock s3) (Get url)) as [[]|e] eqn:Eget.
    + cbn [driver step]. rewrite Hd.
      destruct (respond env element _ (WaitPresence message_box_marker))
        as [el|e] eqn:Ewait.
      * eexists true, _, (Returns tt), _. split; [reflexivity|].
        split; [cbn [trace step]; rewrite <- !app_assoc; reflexivity|].
        split; [intros _; split; [reflexivity | now exists el] | reflexivity].
      * destruct e; eexists false, _, (Returns tt), _;
          (split; [reflexivity|]);
          (split; [cbn [trace step]; rewrite <- !app_assoc; reflexivity|]);
          (split; [discriminate
                  | intros [_ [el H]]; cbn [app] in H; discriminate H]).
    + destruct e; eexists false, _, _, _;
        (split; [reflexivity|]);
        (split; [cbn [trace step]; rewrite <- !app_assoc; reflexivity|]);
        (split; [discriminate | intros [H _]; discriminate H]).
  - intros Hlen.
    assert (E : search_contact contact env s
                = (Returns false,
                   step env (Log (CouldNotFindContact contact)) s3)).
    { rewrite (search_contact_opening _ _ _ _ _ _ Hcancel Hbox Htype).
      rewrite (open_chat_direct _ _ _ _ Htry).
      unfold open_direct.
      destruct (Nat.ltb_spec 7 (String.length contact)) as [H|_]; [lia|].
      now rewrite andb_false_r. }
    rewrite E. split; reflexivity.
Qed.

Lemma deep_link_fallback_witness :
  (is_phone "14155552671" = true
   /\ 7 < String.length "14155552671"
   /\ exists (b : bool) (s' : sender) (navigation : outcome unit)
             (rest : list event),
        search_contact "14155552671" no_match started = (Returns b, s')
        /\ trace s'
           = (trace (snd (try_patterns (xpath_patterns "14155552671") no_match
                            (snd (type_contact 1 "14155552671" no_match
                                    (snd (locate_box search_xpath None
                                            no_match started))))))
                ++ Browser (Get (deep_link (remove_char "+" "14155552671")))
                     navigation
                :: rest)%list
        /\ (b = true
            <-> navigation = Returns tt
                /\ exists e,
                     rest = [ Browser (WaitPresence message_box_marker)
                                (Returns e);
                              Sleep 2 ]))
  /\ (is_phone "1234567" = true
      /\ String.length "1234567" <= 7
      /\ fst (search_contact "1234567" no_match started) = Returns false
      /\ trace (snd (search_contact "1234567" no_match started))
         = (trace (snd (try_patterns (xpath_patterns "1234567") no_match
                          (snd (type_contact 1 "1234567" no_match
                                  (snd (locate_box search_xpath None
                                          no_match started))))))
              ++ [Log (CouldNotFindContact "1234567")])%list).
Proof.
  split.
  - split; [reflexivity|]. split; [cbn; lia|].
    apply (deep_link_fallback "14155552671" no_match started
             (snd (locate_box search_xpath None no_match started))
             (snd (type_contact 1 "14155552671" no_match
                     (snd (locate_box search_xpath None no_match started))))
             _ 1 eq_refl eq_refl eq_refl eq_refl eq_refl).
    cbn; lia.
  - split; [reflexivity|]. split; [cbn; lia|].
    destruct (deep_link_fallback "1234567" no_match started
                (snd (locate_box search_xpath None no_match started))
                (snd (type_contact 1 "1234567" no_match
                        (snd (locate_box search_xpath None no_match started))))
                _ 1 eq_refl eq_refl eq_refl eq_refl eq_refl) as [_ H].
    destruct (H ltac:(cbn; lia)) as [E T].
    split; [now rewrite E | exact T].
Defined.

(** C3 as stated fails for the short numbers: [123] is phone-like, the
    search box is found, the number typed and the five strategies find
    nothing, yet no navigation follows and [search_contact] returns
    [False]. *)
Lemma deep_link_fallback_counterexample :
  is_phone "123" = true
  /\ fst (locate_box search_xpath None no_match started) = Returns (Some 1)
  /\ fst (search_contact "123" no_match started) = Returns false
  /\ trace (snd (search_contact "123" no_match started))
     = [ Browser (WaitPresence (nth 0 search_xpath "")) (Returns 1);
         Browser (IsDisplayed 1) (Returns true);
         Browser (Clear 1) (Returns tt);
         Browser (SendKeys 1 (Text "123")) (Returns tt);
         Log (SearchingPhone "123");
         Sleep 2;
         Browser (FindElements (nth 0 (xpath_patterns "123") "")) (Returns []);
         Browser (FindElements (nth 1 (xpath_patterns "123") "")) (Returns []);
         Browser (FindElements (nth 2 (xpath_patterns "123") "")) (Returns []);
         Browser (FindElements (nth 3 (xpath_patterns "123") "")) (Returns []);
         Browser (FindElements (nth 4 (xpath_patterns "123") "")) (Returns []);
         Log (CouldNotFindContact "123") ].
Proof. repeat split. Qed.

(** C2 -- Phone-number normalization.  For every phone-like identifier
    (digit-only once its [+] are removed) the text [search_contact] types
    and the number [add_phone] stores are the identifier with a [+] put in
    front exactly when it is longer than 7 characters and does not start
    with [+]; an identifier that starts with [+], or of at most 7
    characters, is unchanged. *)
Theorem phone_normalization (contact : string) :
  is_phone contact = true ->
  (formatted_contact contact = "+" ++ contact
   <-> 7 < String.length contact /\ PyStr.startswith contact "+" = false)
  /\ (PyStr.startswith contact "+" = true -> formatted_contact contact = contact)
  /\ (String.length contact <= 7 -> formatted_contact contact = contact)
  /\ (forall box env s,
        type_contact box contact env s
        = (call (Clear box);;
           call (SendKeys box (Text (formatted_contact contact)));;
           log (SearchingPhone (formatted_contact contact));;
           sleep 2) env s)
  /\ (forall g,
        GUI.add_phone contact g
        = (GUI.add_entry g (formatted_contact contact), GUI.Added))
  /\ formatted_contact "14155552671" = "+14155552671"
  /\ formatted_contact "+14155552671" = "+14155552671"
  /\ formatted_contact "123" = "123".
Proof.
  intros H.
  destruct (formatted_contact_rule contact) as (H1 & H2 & H3).
  split; [exact H1|]. split; [exact H2|]. split; [exact H3|].
  split; [|split].
  - intros box env s. unfold type_contact. rewrite H.
    unfold bind. destruct (call (Clear box) env s) as [[[]|e] s1];
      [|reflexivity].
    now destruct (call (SendKeys box _) env s1) as [[[]|e] s2].
  - intros g. unfold GUI.add_phone.
    rewrite (strip_id contact (is_phone_no_space contact H)).
    destruct contact as [|c r]; [discriminate|].
    now rewrite H, format_phone_formatted.
  - repeat split.
Qed.

Lemma phone_normalization_witness :
  is_phone "14155552671" = true
  /\ (forall g,
        GUI.add_phone "14155552671" g
        = (GUI.add_entry g "+14155552671", GUI.Added)).
Proof.
  split; [reflexivity|].
  exact (proj1 (proj2 (proj2 (proj2 (proj2
           (phone_normalization "14155552671" eq_refl)))))).
Defined.

(** ** [send_bulk_messages] and [quit] *)

(** C8 -- No contacts.  [send_bulk_messages] with an empty list logs its
    error line and returns: the line is the only event of the run, so the
    browser is not touched, nothing sleeps and no count is reported, and
    the sender is otherwise as before. *)
Theorem send_bulk_no_contacts (message : string) (delay : Z)
    (env : environment) (s : sender) :
  let s' := snd (send_bulk_messages [] message delay env s) in
  fst (send_bulk_messages [] message delay env s) = Returns tt
  /\ trace s' = (trace s ++ [Log NoContacts])%list
  /\ driver s' = driver s
  /\ is_running s' = is_running s.
Proof. repeat split. Qed.

(** C9 (as amended) -- [quit].  [quit] never raises and leaves
    [is_running] false and the driver handle as it was.  With no handle it
    sends nothing; with a handle it sends the close command once per call,
    and logs the closing when the command returned.  A second call finds
    the same handle and is_running false, and sends the close command
    again. *)
Theorem quit_never_raises (env : environment) (s : sender) :
  let s' := snd (quit env s) in
  fst (quit env s) = Returns tt
  /\ is_running s' = false
  /\ driver s' = driver s
  /\ match driver s with
     | None => trace s' = trace s
     | Some _ =>
         exists r,
           trace s'
           = (trace s
                ++ Browser Quit r
                :: match r with
                   | Returns _ => [Log BrowserClosed]
                   | Raises _ => []
                   end)%list
     end
  /\ is_running (snd (quit env s')) = is_running s'
  /\ driver (snd (quit env s')) = driver s'.
Proof.
  assert (Q : forall s0,
             fst (quit env s0) = Returns tt
             /\ is_running (snd (quit env s0)) = false
             /\ driver (snd (quit env s0)) = driver s0
             /\ match driver s0 with
                | None => trace (snd (quit env s0)) = trace s0
                | Some _ =>
                    exists r,
                      trace (snd (quit env s0))
                      = (trace s0
                           ++ Browser Quit r
                           :: match r with
                              | Returns _ => [Log BrowserClosed]
                              | Raises _ => []
                              end)%list
                end).
  { intros s0. unfold quit, bind, get_driver.
    destruct (driver s0) as [d|] eqn:E; [|cbn; now rewrite E].
    unfold try_except, bind, driver_call. rewrite E.
    unfold call, log, ret, set_is_running.
    destruct (respond env unit (clock s0) Quit) as [[]|e] eqn:R; cbn;
      (split; [reflexivity|]); (split; [reflexivity|]);
      (split; [exact E|]).
    - exists (Returns tt). now rewrite <- app_assoc.
    - now exists (Raises e). }
  cbv zeta. destruct (Q s) as (Q1 & Q2 & Q3 & Q4).
  destruct (Q (snd (quit env s))) as (_ & R2 & R3 & _).
  repeat split; try assumption. congruence.
Qed.

(** C9 as stated fails: the handle is never cleared, so a second [quit]
    closes the browser a second time, and logs it again. *)
Lemma quit_twice_counterexample :
  trace (snd (quit no_match started)) = [Browser Quit (Returns tt); Log BrowserClosed]
  /\ trace (snd ((quit;; quit) no_match started))
     = [ Browser Quit (Returns tt); Log BrowserClosed;
         Browser Quit (Returns tt); Log BrowserClosed ]
  /\ trace (snd ((quit;; quit) no_match started))
     <> trace (snd (quit no_match started)).
Proof. split; [reflexivity|]. split; [reflexivity|]. discriminate. Qed.

(** ** The CSV loader *)

Lemma key_eqb_eq (a b : Csv.key) : Csv.key_eqb a b = true -> a = b.
Proof.
  destruct a as [x|], b as [y|]; cbn; try discriminate; [|reflexivity].
  intros H. apply String.eqb_eq in H. now subst.
Qed.

Lemma has_key_setitem (d : Csv.row) (k k' : Csv.key) (v : Csv.cell) :
  Csv.has_key (Csv.setitem d k v) k'
  = Csv.key_eqb k k' || Csv.has_key d k'.
Proof.
  unfold Csv.has_key.
  induction d as [|[k1 v1] d IH]; cbn [Csv.setitem existsb fst].
  - reflexivity.
  - destruct (Csv.key_eqb k1 k) eqn:E; cbn [existsb fst].
    + apply key_eqb_eq in E. subst k1.
      now destruct (Csv.key_eqb k k').
    + rewrite IH. now destruct (Csv.key_eqb k1 k'), (Csv.key_eqb k k').
Qed.

(** Setting fields named in [names] adds no key outside [names]. *)
Lemma has_key_fold {X : Type} (name_of : X -> string) (cell_of : X -> Csv.cell)
    (names : list string) (key : string) (l : list X) :
  (forall x, In x l -> In (name_of x) names) ->
  ~ In key names ->
  forall d,
    Csv.has_key d (Some key) = false ->
    Csv.has_key
      (fold_left (fun d x => Csv.setitem d (Some (name_of x)) (cell_of x)) l d)
      (Some key) = false.
Proof.
  intros Hl Hkey. induction l as [|x l IH]; intros d Hd; cbn [fold_left];
    [exact Hd|].
  apply IH; [intros y Hy; apply Hl; now right|].
  rewrite has_key_setitem, Hd, orb_false_r. cbn.
  apply String.eqb_neq. intros E. apply Hkey. rewrite <- E.
  apply Hl. now left.
Qed.

(** A row has no field that the header does not name. *)
Lemma dict_row_no_key (fieldnames record : list string) (key : string) :
  ~ In key fieldnames ->
  Csv.has_key (Csv.dict_row fieldnames record) (Some key) = false.
Proof.
  intros Hkey.
  assert (Hz : Csv.has_key (Csv.dict_zip fieldnames record) (Some key) = false).
  { unfold Csv.dict_zip.
    apply (has_key_fold fst (fun item => Csv.Str (snd item)) fieldnames);
      [|exact Hkey|reflexivity].
    intros [f x] H. exact (in_combine_l _ _ _ _ H). }
  unfold Csv.dict_row.
  destruct (List.length fieldnames <? List.length record)%nat.
  - now rewrite has_key_setitem, Hz.
  - destruct (List.length record <? List.length fieldnames)%nat; [|exact Hz].
    apply (has_key_fold (fun name => name) (fun _ => Csv.Missing) fieldnames);
      [|exact Hkey|exact Hz].
    intros f H. rewrite <- (firstn_skipn (List.length record) fieldnames).
    apply in_or_app. now right.
Qed.

(** Without a [name] in the header, the loop stops at the first record that
    is not blank. *)
Lemma read_rows_no_name (fieldnames : list string) (failure : option exn)
    (env : environment) (s : sender) (records : list (list string)) :
  ~ In "name" fieldnames ->
  forall contacts,
    Csv.read_rows fieldnames records failure contacts env s
    = match Csv.data_records records with
      | _ :: _ => (Returns [], step env (Log CsvNeedsName) s)
      | [] =>
          match failure with
          | Some e => (Raises e, s)
          | None => (Returns contacts, s)
          end
      end.
Proof.
  intros Hname. induction records as [|record rest IH]; intros contacts.
  - cbn. now destruct failure.
  - destruct record as [|x record]; [exact (IH contacts)|].
    cbn [Csv.read_rows Csv.data_records filter].
    now rewrite (dict_row_no_key fieldnames (x :: record) "name" Hname).
Qed.

Lemma not_in_existsb (key : string) (names : list string) :
  existsb (String.eqb key) names = false -> ~ In key names.
Proof.
  intros H Hin.
  assert (E : existsb (String.eqb key) names = true)
    by (apply existsb_exists; exists key; split;
        [exact Hin | apply String.eqb_refl]).
  congruence.
Qed.

(** C7 (as amended) -- CSV loading without a [name] column.  For every
    file whose header has no [name], loading returns the empty list, never
    a part of the rows.  It logs that a [name] column is needed when the
    file has at least one record after the header that is not blank;
    a file with no such record is loaded without that line, silently when
    the reading did not fail. *)
Theorem csv_without_name_column (fieldnames : list string)
    (records : list (list string)) (failure : option exn)
    (env : environment) (s : sender) :
  existsb (String.eqb "name") fieldnames = false ->
  let run :=
    Csv.load_contacts_from_csv (Csv.Records (fieldnames :: records) failure)
      env s in
  fst run = Returns []
  /\ (Csv.data_records records <> [] ->
      trace (snd run) = (trace s ++ [Log CsvNeedsName])%list)
  /\ (Csv.data_records records = [] ->
      match failure with
      | None => snd run = s
      | Some e => trace (snd run) = (trace s ++ [Log (CsvError e)])%list
      end).
Proof.
  intros H. apply not_in_existsb in H. cbv zeta.
  unfold Csv.load_contacts_from_csv, try_except.
  rewrite (read_rows_no_name fieldnames failure env s records H []).
  destruct (Csv.data_records records) as [|r rs].
  - destruct failure as [e|]; cbn; (split; [reflexivity|]);
      (split; [intros N; now elim N | reflexivity]).
  - cbn. split; [reflexivity|]. split; [reflexivity | discriminate].
Qed.

Lemma csv_without_name_column_witness :
  existsb (String.eqb "name") ["phone"; "city"] = false
  /\ fst (Csv.load_contacts_from_csv
            (Csv.Records [["phone"; "city"]; ["14155552671"; "Lima"]] None)
            no_match started) = Returns []
  /\ trace (snd (Csv.load_contacts_from_csv
                   (Csv.Records [["phone"; "city"]; ["14155552671"; "Lima"]]
                      None)
                   no_match started)) = [Log CsvNeedsName].
Proof.
  pose proof (csv_without_name_column ["phone"; "city"]
                [["14155552671"; "Lima"]] None no_match started eq_refl)
    as (H1 & H2 & _).
  split; [reflexivity|]. split; [exact H1|].
  apply H2. discriminate.
Defined.

(** C7 as stated fails for a file that has a header and no record: it is
    loaded as the empty list and no error is logged. *)
Lemma csv_without_name_column_counterexample :
  existsb (String.eqb "name") ["phone"; "city"] = false
  /\ Csv.load_contacts_from_csv (Csv.Records [["phone"; "city"]] None)
       no_match started
     = (Returns [], started)
  /\ trace started = [].
Proof. repeat split. Qed.

(** ** The loop over the contacts *)

Lemma page_contact_event (ev : event) : page_event ev -> contact_event ev.
Proof.
  destruct ev as [T c r|n|line]; cbn; [trivial | trivial|].
  now destruct line.
Qed.

Lemma emits_deliver (contact_name : string) (c : contact) (message : string)
    (n : counts) :
  emits contact_event (deliver contact_name c message n).
Proof.
  pose proof (emits_weaken _ _ _ page_contact_event
                (emits_search_contact contact_name)).
  pose proof (fun m => emits_weaken _ _ _ page_contact_event
                         (emits_send_message m)).
  unfold deliver. emits_all.
Qed.

(** Each contact worked on goes to exactly one of the two counters. *)
Lemma deliver_counts (contact_name : string) (c : contact) (message : string)
    (n : counts) (env : environment) (s : sender) :
  exists n',
    fst (deliver contact_name c message n env s) = Returns n'
    /\ (n' = succeeded n \/ n' = failed n).
Proof.
  unfold deliver, bind.
  destruct (never_raises_search_contact contact_name env s) as [found E].
  destruct (search_contact contact_name env s) as [r s1]. cbn in E. subst r.
  destruct found; [|exists (failed n); cbn; auto].
  destruct (never_raises_send_message (personalize message contact_name c)
              env s1) as [sent E].
  destruct (send_message _ env s1) as [r s2]. cbn in E. subst r.
  destruct sent; [exists (succeeded n) | exists (failed n)]; cbn; auto.
Qed.

Lemma attempts_app (a b : list event) :
  attempts (a ++ b) = attempts a + attempts b.
Proof. unfold attempts. now rewrite filter_app, length_app. Qed.

Lemma attempts_contact_events (evs : list event) :
  Forall contact_event evs -> attempts evs = 0.
Proof.
  unfold attempts. induction 1 as [|ev evs H _ IH]; [reflexivity|].
  cbn [filter]. destruct ev as [T c r|k|line]; try exact IH.
  destruct line; try exact IH. elim H.
Qed.

(** The work on one contact: its opening line, then events of the contact,
    and one counter up by one. *)
Lemma send_to_run (i total : nat) (c : contact) (message : string)
    (delay : Z) (n : counts) (env : environment) (s : sender) :
  has_name c = true ->
  exists contact_name n' s' evs,
    send_to i total c message delay n env s = (Returns n', s')
    /\ trace s' = (trace s ++ Log (SendingTo i total contact_name) :: evs)%list
    /\ Forall contact_event evs
    /\ (n' = succeeded n \/ n' = failed n).
Proof.
  unfold has_name, send_to. intros Hname.
  destruct (getitem c "name") as [contact_name|]; [|discriminate].
  exists contact_name.
  unfold bind at 1, ret at 1. unfold bind at 1, log at 1.
  set (s0 := step env (Log (SendingTo i total contact_name)) s).
  destruct (deliver_counts contact_name c message n env s0) as (n' & E & Hn).
  pose proof (emits_deliver contact_name c message n env s0) as F1.
  unfold bind.
  destruct (deliver contact_name c message n env s0) as [r s1].
  cbn in E, F1. subst r.
  destruct (never_raises_wait_between (Z.to_nat delay) env s1) as [[] W].
  pose proof (emits_weaken _ _ _ page_contact_event
                (emits_wait_between (Z.to_nat delay)) env s1) as F2.
  destruct (wait_between (Z.to_nat delay) env s1) as [r s2].
  cbn in W, F2. subst r.
  destruct (follows_trans _ _ _ _ F1 F2) as [[evs [T F]] _].
  exists n', s2, evs. split; [reflexivity|].
  split; [|split; assumption].
  rewrite T. unfold s0. cbn [trace step]. now rewrite <- app_assoc.
Qed.

(** The counters after the loop: they went up by the number of contacts
    worked on, which is at most the number of contacts. *)
Lemma send_loop_tally (total : nat) (message : string) (delay : Z)
    (env : environment) (contacts : list contact) :
  Forall (fun c => has_name c = true) contacts ->
  forall i n s,
  exists n' s' evs,
    send_loop i total contacts message delay n env s = (Returns n', s')
    /\ trace s' = (trace s ++ evs)%list
    /\ success_count n' + fail_count n'
       = success_count n + fail_count n + attempts evs
    /\ attempts evs <= List.length contacts.
Proof.
  induction 1 as [|c rest Hc _ IH]; intros i n s; cbn [send_loop].
  - exists n, s, []. cbn. rewrite app_nil_r. repeat split; lia.
  - unfold bind at 1, get_cancel_requested.
    destruct (cancel_requested s).
    + eexists n, _, [Log Cancelled]. cbn. repeat split; lia.
    + destruct (send_to_run i total c message delay n env s Hc)
        as (name & n1 & s1 & evs1 & E1 & T1 & F1 & N1).
      rewrite (bind_returns _ _ _ _ _ _ E1).
      destruct (IH (S i) n1 s1) as (n2 & s2 & evs2 & E2 & T2 & C2 & A2).
      exists n2, s2, (Log (SendingTo i total name) :: evs1 ++ evs2)%list.
      split; [exact E2|]. split.
      * rewrite T2, T1, <- app_assoc. reflexivity.
      * change (Log (SendingTo i total name) :: evs1 ++ evs2)%list
          with ([Log (SendingTo i total name)] ++ evs1 ++ evs2)%list.
        rewrite !attempts_app, (attempts_contact_events evs1 F1).
        change (attempts [Log (SendingTo i total name)]) with 1.
        destruct N1 as [-> | ->];
          cbn [succeeded failed success_count fail_count] in C2;
          cbn [List.length]; lia.
Qed.

(** Once cancellation has been asked for, the loop does nothing more than
    log it. *)
Lemma send_loop_cancelled (i total : nat) (message : string) (delay : Z)
    (n : counts) (env : environment) (s : sender) (contacts : list contact) :
  cancel_requested s = true ->
  exists s',
    send_loop i total contacts message delay n env s = (Returns n, s')
    /\ (trace s' = trace s \/ trace s' = (trace s ++ [Log Cancelled])%list).
Proof.
  intros H. destruct contacts as [|c rest]; cbn [send_loop].
  - exists s. auto.
  - unfold bind, get_cancel_requested. rewrite H.
    eexists. split; [reflexivity|]. now right.
Qed.

Lemma send_loop_cons (i total : nat) (c : contact) (rest : list contact)
    (message : string) (delay : Z) (n : counts) (env : environment)
    (s : sender) :
  send_loop i total (c :: rest) message delay n env s
  = if cancel_requested s
    then (Returns n, step env (Log Cancelled) s)
    else bind (send_to i total c message delay n)
           (fun n' => send_loop (S i) total rest message delay n') env s.
Proof.
  cbn [send_loop]. unfold bind at 1, get_cancel_requested.
  now destruct (cancel_requested s).
Qed.

(** A cancellation asked for by the time the first contacts have been
    dealt with: the contacts after them are not worked on. *)
Lemma send_loop_prefix (total : nat) (message : string) (delay : Z)
    (env : environment) (post pre : list contact) :
  Forall (fun c => has_name c = true) pre ->
  forall i n s n1 s1,
    send_loop i total pre message delay n env s = (Returns n1, s1) ->
    cancel_requested s1 = true ->
    exists s2,
      send_loop i total (pre ++ post) message delay n env s = (Returns n1, s2)
      /\ (trace s2 = trace s1
          \/ trace s2 = (trace s1 ++ [Log Cancelled])%list).
Proof.
  induction 1 as [|c rest Hc _ IH]; intros i n s n1 s1 E Hcancel.
  - cbn in E. injection E as <- <-.
    apply send_loop_cancelled, Hcancel.
  - cbn [app]. rewrite send_loop_cons in *.
    destruct (cancel_requested s).
    + exists s1. split; [exact E | now left].
    + destruct (send_to_run i total c message delay n env s Hc)
        as (name & n' & s' & evs & E1 & _).
      rewrite (bind_returns _ _ _ _ _ _ E1) in E.
      rewrite (bind_returns _ _ _ _ _ _ E1).
      exact (IH (S i) n' s' n1 s1 E Hcancel).
Qed.

Lemma forallb_Forall {A : Type} (p : A -> bool) (l : list A) :
  forallb p l = true -> Forall (fun x => p x = true) l.
Proof. intros H. apply Forall_forall. now apply forallb_forall. Qed.

(** What [send_bulk_messages] reports at its end are the counters of the
    loop. *)
Lemma send_bulk_messages_report (contacts : list contact) (message : string)
    (delay : Z) (env : environment) (s : sender) :
  forallb has_name contacts = true ->
  contacts <> [] ->
  exists n s' evs,
    send_bulk_messages contacts message delay env s = (Returns tt, s')
    /\ trace s'
       = (trace s
            ++ Log (SendingMessagesTo (List.length contacts))
            :: evs ++ [Log (Done (success_count n) (fail_count n))])%list
    /\ success_count n + fail_count n = attempts evs
    /\ attempts evs <= List.length contacts
    /\ is_running s' = false.
Proof.
  intros Hn Hne. apply forallb_Forall in Hn.
  destruct contacts as [|c rest]; [now elim Hne|].
  unfold send_bulk_messages.
  set (contacts := c :: rest) in *.
  unfold bind at 1, log at 1.
  set (s0 := step env (Log (SendingMessagesTo (List.length contacts))) s).
  destruct (send_loop_tally (List.length contacts) message delay env contacts
              Hn 1 {| success_count := 0; fail_count := 0 |} s0)
    as (n & s1 & evs & E & T & C & A).
  rewrite (bind_returns _ _ _ _ _ _ E).
  exists n, (snd (set_is_running false env
                    (step env (Log (Done (success_count n) (fail_count n)))
                       s1))), evs.
  split; [reflexivity|]. split; [|split; [exact C | split; [exact A|]]].
  - cbn [set_is_running snd trace step]. rewrite T. unfold s0.
    cbn [trace step]. now rewrite <- !app_assoc.
  - reflexivity.
Qed.

(** C5 -- Cooperative cancellation in [send_bulk_messages].  For every
    list of contacts (each with its [name]) cut anywhere in two: when
    cancellation has been asked for by the time the loop is done with the
    first part, the loop over the whole list ends with the same counters as
    the loop over the first part and adds nothing to its trace but, at
    most, the line that says the operation was cancelled: no contact of
    the second part is searched.  In every run each contact worked on
    raises exactly one of the two counters, so their sum, which
    [send_bulk_messages] reports, is the number of contacts worked on and
    at most the number of contacts. *)
Theorem cooperative_cancellation (pre post : list contact) (message : string)
    (delay : Z) (i total : nat) (n : counts) (env : environment)
    (s : sender) :
  forallb has_name (pre ++ post)%list = true ->
  (exists n1 s1 n2 s2 evs,
     send_loop i total pre message delay n env s = (Returns n1, s1)
     /\ send_loop i total (pre ++ post)%list message delay n env s
        = (Returns n2, s2)
     /\ trace s2 = (trace s ++ evs)%list
     /\ success_count n2 + fail_count n2
        = success_count n + fail_count n + attempts evs
     /\ attempts evs <= List.length (pre ++ post)%list
     /\ (cancel_requested s1 = true ->
         n2 = n1
         /\ (trace s2 = trace s1
             \/ trace s2 = (trace s1 ++ [Log Cancelled])%list)))
  /\ ((pre ++ post)%list <> [] ->
      exists m s' evs,
        send_bulk_messages (pre ++ post)%list message delay env s
        = (Returns tt, s')
        /\ trace s'
           = (trace s
                ++ Log (SendingMessagesTo (List.length (pre ++ post)%list))
                :: evs ++ [Log (Done (success_count m) (fail_count m))])%list
        /\ success_count m + fail_count m = attempts evs
        /\ attempts evs <= List.length (pre ++ post)%list).
Proof.
  intros H. split.
  - pose proof (forallb_Forall _ _ H) as Hall.
    pose proof Hall as Hpre. apply Forall_app in Hpre as [Hpre _].
    destruct (send_loop_tally total message delay env pre Hpre i n s)
      as (n1 & s1 & evs1 & E1 & _).
    destruct (send_loop_tally total message delay env (pre ++ post)%list Hall i n s)
      as (n2 & s2 & evs & E2 & T2 & C2 & A2).
    exists n1, s1, n2, s2, evs.
    repeat (split; [assumption|]).
    intros Hcancel.
    destruct (send_loop_prefix total message delay env post pre Hpre
                i n s n1 s1 E1 Hcancel) as (s2' & E2' & Ht).
    rewrite E2 in E2'. injection E2' as -> ->. now split.
  - intros Hne.
    destruct (send_bulk_messages_report (pre ++ post)%list message delay env s
                H Hne) as (m & s' & evs & E & T & C & A & _).
    now exists m, s', evs.
Qed.

Lemma cooperative_cancellation_witness :
  let pre : list contact := [[("name", "Ana")]] in
  let post : list contact := [[("name", "Bob"); ("city", "Lima")]] in
  let zero := {| success_count := 0; fail_count := 0 |} in
  let first := send_loop 1 2 pre "Hi {name}" 3 zero cancel_at_5 started in
  let whole :=
    send_loop 1 2 (pre ++ post)%list "Hi {name}" 3 zero cancel_at_5 started in
  forallb has_name (pre ++ post)%list = true
  /\ cancel_requested (snd first) = true
  /\ trace (snd first)
     = [ Log (SendingTo 1 2 "Ana");
         Browser (WaitPresence (nth 0 search_xpath "")) (Returns 1);
         Browser (IsDisplayed 1) (Returns true);
         Browser (Clear 1) (Returns tt);
         Browser (SendKeys 1 (Text "Ana")) (Returns tt);
         Log (SearchingContact "Ana");
         Sleep 2;
         Log (ContactNotFound "Ana") ]
  /\ fst whole = fst first
  /\ (trace (snd whole) = trace (snd first)
      \/ trace (snd whole) = (trace (snd first) ++ [Log Cancelled])%list).
Proof.
  cbv zeta. do 3 (split; [reflexivity|]).
  destruct (proj1 (cooperative_cancellation [[("name", "Ana")]]
                     [[("name", "Bob"); ("city", "Lima")]] "Hi {name}" 3 1 2
                     {| success_count := 0; fail_count := 0 |}
                     cancel_at_5 started eq_refl))
    as (n1 & s1 & n2 & s2 & evs & E1 & E2 & _ & _ & _ & Hc).
  rewrite E1, E2. cbn [fst snd].
  assert (C : cancel_requested s1 = true).
  { change s1 with (snd (Returns n1, s1)). rewrite <- E1. reflexivity. }
  destruct (Hc C) as [-> Ht]. split; [reflexivity | exact Ht].
Defined.

(** * Further properties *)

(** ** Numbers stored by the manual entry *)

Lemma formatted_contact_idempotent (contact : string) :
  formatted_contact (formatted_contact contact) = formatted_contact contact.
Proof.
  unfold formatted_contact.
  destruct ((7 <? String.length contact)%nat
            && negb (PyStr.startswith contact "+")) eqn:E.
  - cbn [append PyStr.startswith]. rewrite Ascii.eqb_refl.
    cbn [andb negb]. now rewrite andb_false_r.
  - now rewrite E.
Qed.

Lemma remove_plus_formatted (contact : string) :
  remove_char "+" (formatted_contact contact) = remove_char "+" contact.
Proof.
  unfold formatted_contact. now destruct (_ && _).
Qed.

Lemma is_phone_formatted (contact : string) :
  is_phone (formatted_contact contact) = is_phone contact.
Proof.
  unfold is_phone. now rewrite !replace_char_empty, remove_plus_formatted.
Qed.

(** X20 -- What the manual entry stores is what the search uses.  For a
    phone-like entry, the number [add_phone] and [add_bulk_phones] store is
    still phone-like, [search_contact] types it as it is, and the digits of
    its deep link are the digits entered. *)
Theorem stored_number_searched_unchanged (number : string) :
  is_phone number = true ->
  is_phone (format_phone number) = true
  /\ formatted_contact (format_phone number) = format_phone number
  /\ PyStr.replace (format_phone number) "+" "" = PyStr.replace number "+" ""
  /\ (forall box env s,
        type_contact box (format_phone number) env s
        = (call (Clear box);;
           call (SendKeys box (Text (format_phone number)));;
           log (SearchingPhone (format_phone number));;
           sleep 2) env s).
Proof.
  intros H. rewrite format_phone_formatted.
  assert (Hp : is_phone (formatted_contact number) = true)
    by now rewrite is_phone_formatted.
  split; [exact Hp|]. split; [apply formatted_contact_idempotent|].
  split; [now rewrite !replace_char_empty, remove_plus_formatted|].
  intros box env s. unfold type_contact. rewrite Hp.
  rewrite formatted_contact_idempotent. unfold bind.
  destruct (call (Clear box) env s) as [[[]|e] s1]; [|reflexivity].
  now destruct (call (SendKeys box _) env s1) as [[[]|e] s2].
Qed.

Lemma stored_number_searched_unchanged_witness :
  is_phone "14155552671" = true
  /\ formatted_contact (format_phone "14155552671") = "+14155552671".
Proof.
  split; [reflexivity|].
  exact (proj1 (proj2 (stored_number_searched_unchanged "14155552671"
                         eq_refl))).
Defined.

(** ** The manual tab *)

Lemma delete_at_map {A B : Type} (f : A -> B) (idx : nat) (l : list A) :
  map f (delete_at idx l) = delete_at idx (map f l).
Proof.
  unfold delete_at. now rewrite map_app, firstn_map, skipn_map.
Qed.

Lemma delete_at_beyond {A : Type} (idx : nat) (l : list A) :
  List.length l <= idx -> delete_at idx l = l.
Proof.
  intros H. unfold delete_at.
  rewrite firstn_all2 by exact H. rewrite skipn_all2 by lia.
  apply app_nil_r.
Qed.

Lemma delete_at_forallb {A : Type} (p : A -> bool) (idx : nat) (l : list A) :
  forallb p l = true -> forallb p (delete_at idx l) = true.
Proof.
  intros H. unfold delete_at. rewrite forallb_app.
  rewrite <- (firstn_skipn idx l), forallb_app in H.
  apply andb_true_iff in H as [H1 H2]. rewrite H1. cbn [andb].
  replace (skipn (S idx) l) with (skipn 1 (skipn idx l))
    by (rewrite skipn_skipn; reflexivity).
  destruct (skipn idx l) as [|x r]; [reflexivity|].
  cbn in *. now apply andb_true_iff in H2 as [_ H2].
Qed.

Lemma add_entries_in_step (numbers : list string) (g : GUI.state) :
  in_step g ->
  forallb is_phone (GUI.phones_listbox g) = true ->
  forallb is_phone numbers = true ->
  in_step (fold_left GUI.add_entry numbers g)
  /\ forallb is_phone (GUI.phones_listbox (fold_left GUI.add_entry numbers g))
     = true.
Proof.
  unfold in_step. intros Hs Hp Hn.
  rewrite add_entries_contacts, add_entries_listbox, map_app, forallb_app.
  now rewrite Hs, Hp, Hn.
Qed.

Lemma accepted_formatted (numbers : list string) :
  forallb is_phone (map format_phone (filter is_phone numbers)) = true.
Proof.
  induction numbers as [|n ns IH]; [reflexivity|]. cbn [filter].
  destruct (is_phone n) eqn:E; [|exact IH]. cbn [map forallb].
  now rewrite format_phone_formatted, is_phone_formatted, E, IH.
Qed.

(** X18 -- The manual tab keeps its two lists in step.  Whatever the user
    enters, pastes, removes or clears, the listbox and [manual_contacts]
    hold the same numbers in the same order, each contact is a record with
    the field [name], and every number is phone-like. *)
Theorem manual_tab_in_step (g : GUI.state) :
  entered g ->
  in_step g
  /\ forallb is_phone (GUI.phones_listbox g) = true
  /\ forallb has_name (GUI.manual_contacts g) = true
  /\ List.length (GUI.manual_contacts g) = List.length (GUI.phones_listbox g).
Proof.
  intros H.
  assert (I : in_step g /\ forallb is_phone (GUI.phones_listbox g) = true).
  { induction H as [|text g H [Hs Hp]|text g H [Hs Hp]|sel g H [Hs Hp]
                   |g H [Hs Hp]].
    - split; reflexivity.
    - unfold GUI.add_phone.
      destruct (PyStr.strip text) as [|c r] eqn:E; [now split|].
      destruct (is_phone (String c r)) eqn:P; cbn [negb fst]; [|now split].
      apply (add_entries_in_step [format_phone (String c r)] g Hs Hp).
      cbn. now rewrite format_phone_formatted, is_phone_formatted, P.
    - rewrite add_bulk_phones_gui.
      apply (add_entries_in_step _ g Hs Hp), accepted_formatted.
    - destruct sel as [|idx sel]; [now split|].
      unfold in_step in *. cbn [remove_phone GUI.manual_contacts
                                  GUI.phones_listbox].
      split; [|now apply delete_at_forallb].
      rewrite Hs, length_map.
      destruct (Nat.ltb_spec idx (List.length (GUI.phones_listbox g))).
      + symmetry. apply delete_at_map.
      + now rewrite delete_at_beyond.
    - split; reflexivity. }
  destruct I as [Hs Hp]. split; [exact Hs|]. split; [exact Hp|].
  rewrite Hs, length_map. split; [|reflexivity].
  clear. induction (GUI.phones_listbox g) as [|n ns IH]; [reflexivity|].
  exact IH.
Qed.

Lemma manual_tab_in_step_witness :
  let g := remove_phone [0]
             (fst (GUI.add_bulk_phones "111, 14155552671;abc"
                     (fst (GUI.add_phone "222" no_phones)))) in
  entered g
  /\ GUI.phones_listbox g = ["111"; "+14155552671"]
  /\ in_step g.
Proof.
  cbv zeta.
  assert (E : entered
                (remove_phone [0]
                   (fst (GUI.add_bulk_phones "111, 14155552671;abc"
                           (fst (GUI.add_phone "222" no_phones))))))
    by (repeat constructor).
  split; [exact E|]. split; [reflexivity|].
  exact (proj1 (manual_tab_in_step _ E)).
Defined.

(** X19 -- The counts of [add_bulk_phones].  When the text is blank
    nothing is counted and nothing changes; otherwise every candidate is
    counted once, as added when it is phone-like and as invalid when not,
    and the list grows by the number added. *)
Theorem bulk_phone_counts (text : string) (g : GUI.state) :
  match snd (GUI.add_bulk_phones text g) with
  | None =>
      PyStr.strip text = "" /\ GUI.candidates text = []
      /\ fst (GUI.add_bulk_phones text g) = g
  | Some (added_count, invalid_count) =>
      added_count = List.length (filter is_phone (GUI.candidates text))
      /\ invalid_count = List.length (filter rejected (GUI.candidates text))
      /\ added_count + invalid_count = List.length (GUI.candidates text)
      /\ List.length (GUI.manual_contacts (fst (GUI.add_bulk_phones text g)))
         = List.length (GUI.manual_contacts g) + added_count
  end.
Proof.
  pose proof (add_bulk_phones_gui text g) as G. revert G.
  unfold GUI.add_bulk_phones.
  destruct (PyStr.strip text) as [|c r] eqn:E; cbn [fst snd].
  - intros _. split; [reflexivity|].
    split; [exact (candidates_of_blank text E) | reflexivity].
  - intros G. rewrite G. clear G. unfold GUI.add_line.
    rewrite (fold_left_concat_map GUI.add_number PyStr.split).
    rewrite <- E, bulk_lines_candidates.
    rewrite add_numbers by apply candidates_no_space.
    cbn [GUI.added_count GUI.invalid_count].
    split; [reflexivity|]. split; [reflexivity|]. split.
    + apply (filter_length is_phone).
    + now rewrite add_entries_contacts, length_app, !length_map.
Qed.

(** ** Messages without placeholders *)

Lemma contains_no_open (s p : string) :
  PyStr.all_chars (fun c => negb (Ascii.eqb c "{")) s = true ->
  PyStr.contains s (String "{" p) = false.
Proof.
  induction s as [|c s IH]; [reflexivity|].
  cbn [PyStr.all_chars PyStr.contains PyStr.startswith]. intros H.
  apply andb_true_iff in H as [Hc Hs]. apply negb_true_iff in Hc.
  now rewrite Hc, (IH Hs).
Qed.

(** X21 -- A message with no opening brace is sent as it is, to every
    contact, whatever the fields of the contact hold. *)
Theorem message_without_placeholder (message contact_name : string)
    (c : contact) :
  PyStr.all_chars (fun ch => negb (Ascii.eqb ch "{")) message = true ->
  personalize message contact_name c = message.
Proof.
  intros H. unfold personalize.
  change "{name}" with (String "{" "name}").
  rewrite (contains_no_open message _ H).
  induction c as [|[key value] c IH]; [reflexivity|].
  cbn [fold_left substitute_field].
  rewrite placeholder_unfold, (contains_no_open message _ H), andb_false_r.
  exact IH.
Qed.

Lemma message_without_placeholder_witness :
  PyStr.all_chars (fun ch => negb (Ascii.eqb ch "{")) "See you at 5 :}" = true
  /\ personalize "See you at 5 :}" "Ana"
       [("name", "Ana"); (":", "{name}"); ("5", "6")]
     = "See you at 5 :}".
Proof.
  split; [reflexivity|].
  exact (message_without_placeholder "See you at 5 :}" "Ana" _ eq_refl).
Defined.

(** ** The rows of the CSV loader *)

Lemma has_key_fold_eq {X : Type} (name_of : X -> string)
    (cell_of : X -> Csv.cell) (k : Csv.key) (l : list X) :
  forall d,
    Csv.has_key
      (fold_left (fun d x => Csv.setitem d (Some (name_of x)) (cell_of x)) l d)
      k
    = Csv.has_key d k
      || existsb (fun x => Csv.key_eqb (Some (name_of x)) k) l.
Proof.
  induction l as [|x l IH]; intros d; cbn [fold_left existsb].
  - now rewrite orb_false_r.
  - rewrite IH, has_key_setitem.
    now destruct (Csv.key_eqb (Some (name_of x)) k), (Csv.has_key d k).
Qed.

Lemma existsb_combine_fst (p : string -> bool) (names : list string) :
  forall record : list string,
    existsb (fun item => p (fst item)) (combine names record)
    = existsb p (firstn (List.length record) names).
Proof.
  induction names as [|n names IH]; intros [|x record]; cbn;
    try reflexivity.
  now rewrite IH.
Qed.

Lemma has_key_dict_zip (fieldnames record : list string) (k : Csv.key) :
  Csv.has_key (Csv.dict_zip fieldnames record) k
  = existsb (fun name => Csv.key_eqb (Some name) k)
      (firstn (List.length record) fieldnames).
Proof.
  unfold Csv.dict_zip.
  rewrite (has_key_fold_eq fst (fun item => Csv.Str (snd item))).
  cbn [Csv.has_key existsb orb].
  exact (existsb_combine_fst (fun name => Csv.key_eqb (Some name) k)
           fieldnames record).
Qed.

Lemma dict_row_has_key (fieldnames record : list string) :
  (forall key,
     Csv.has_key (Csv.dict_row fieldnames record) (Some key)
     = existsb (fun name => String.eqb name key) fieldnames)
  /\ Csv.has_key (Csv.dict_row fieldnames record) None
     = (List.length fieldnames <? List.length record)%nat.
Proof.
  unfold Csv.dict_row.
  destruct (Nat.ltb_spec (List.length fieldnames) (List.length record))
    as [Hlt|Hge].
  - split; [intros key|]; rewrite has_key_setitem, has_key_dict_zip.
    + now rewrite firstn_all2 by lia.
    + reflexivity.
  - destruct (Nat.ltb_spec (List.length record) (List.length fieldnames))
      as [Hlt|Hle].
    + split; [intros key|];
        rewrite (has_key_fold_eq (fun name => name) (fun _ => Csv.Missing)),
          has_key_dict_zip, <- existsb_app, firstn_skipn.
      * reflexivity.
      * clear. now induction fieldnames.
    + split; [intros key|]; rewrite has_key_dict_zip, firstn_all2 by lia.
      * reflexivity.
      * clear. now induction fieldnames.
Qed.

(** X16 -- The keys of a row.  Whatever the length of the record, the
    fields of its row are the names of the header, so [name] is in a row
    iff it is in the header; the key [None] is there iff the record is
    longer than the header. *)
Theorem dict_row_keys (fieldnames record : list string) :
  (forall key,
     Csv.has_key (Csv.dict_row fieldnames record) (Some key)
     = existsb (fun name => String.eqb name key) fieldnames)
  /\ (Csv.has_key (Csv.dict_row fieldnames record) (Some "name")
      = existsb (String.eqb "name") fieldnames)
  /\ Csv.has_key (Csv.dict_row fieldnames record) None
     = (List.length fieldnames <? List.length record)%nat.
Proof.
  destruct (dict_row_has_key fieldnames record) as [H1 H2].
  split; [exact H1|]. split; [|exact H2].
  rewrite H1. clear. induction fieldnames as [|n ns IH]; [reflexivity|].
  cbn. now rewrite IH, String.eqb_sym.
Qed.

Lemma has_key_app (d d' : Csv.row) (k : Csv.key) :
  Csv.has_key (d ++ d')%list k = Csv.has_key d k || Csv.has_key d' k.
Proof. unfold Csv.has_key. apply existsb_app. Qed.

Lemma setitem_fresh (d : Csv.row) (k : Csv.key) (v : Csv.cell) :
  Csv.has_key d k = false -> Csv.setitem d k v = (d ++ [(k, v)])%list.
Proof.
  unfold Csv.has_key.
  induction d as [|[k1 v1] d IH]; cbn [Csv.setitem existsb fst app];
    [reflexivity|].
  intros H. apply orb_false_iff in H as [H1 H2].
  now rewrite H1, (IH H2).
Qed.

Lemma zip_fresh (items : list (string * string)) :
  forall d : Csv.row,
    (forall item, In item items -> Csv.has_key d (Some (fst item)) = false) ->
    distinct (map fst items) = true ->
    fold_left (fun d item => Csv.setitem d (Some (fst item)) (Csv.Str (snd item)))
      items d
    = (d ++ map (fun item => (Some (fst item), Csv.Str (snd item))) items)%list.
Proof.
  induction items as [|[k v] items IH]; intros d Hd Hn; cbn [fold_left map].
  - now rewrite app_nil_r.
  - cbn [distinct map fst] in Hn. apply andb_true_iff in Hn as [Hk Hn].
    apply negb_true_iff in Hk.
    rewrite (setitem_fresh d (Some k) _ (Hd (k, v) (or_introl eq_refl))).
    rewrite IH; [now rewrite <- app_assoc| |exact Hn].
    intros [k' v'] Hin. rewrite has_key_app, (Hd _ (or_intror Hin)).
    cbn. rewrite orb_false_r.
    destruct (String.eqb_spec k k') as [->|]; [|reflexivity].
    assert (E : existsb (String.eqb k') (map fst items) = true).
    { apply existsb_exists. exists k'. split; [|apply String.eqb_refl].
      apply in_map_iff. now exists (k', v'). }
    cbn [fst] in Hk. congruence.
Qed.

Lemma map_fst_combine (names record : list string) :
  List.length record = List.length names ->
  map fst (combine names record) = names.
Proof.
  revert record. induction names as [|n names IH]; intros [|x record] H;
    cbn in *; try discriminate; [reflexivity|].
  f_equal. apply IH. lia.
Qed.

(** X17 -- A record as long as a header of distinct names becomes the row
    that gives each name its field, in the order of the columns. *)
Theorem dict_row_rectangular (fieldnames record : list string) :
  distinct fieldnames = true ->
  List.length record = List.length fieldnames ->
  Csv.dict_row fieldnames record
  = map (fun item => (Some (fst item), Csv.Str (snd item)))
      (combine fieldnames record).
Proof.
  intros Hn Hl. unfold Csv.dict_row. rewrite Hl, Nat.ltb_irrefl.
  unfold Csv.dict_zip.
  rewrite zip_fresh; [reflexivity | reflexivity|].
  now rewrite map_fst_combine.
Qed.

Lemma dict_row_rectangular_witness :
  distinct ["name"; "city"] = true
  /\ List.length ["Ana"; "Lima"] = List.length ["name"; "city"]
  /\ Csv.dict_row ["name"; "city"] ["Ana"; "Lima"]
     = [(Some "name", Csv.Str "Ana"); (Some "city", Csv.Str "Lima")].
Proof.
  split; [reflexivity|]. split; [reflexivity|].
  exact (dict_row_rectangular ["name"; "city"] ["Ana"; "Lima"]
           eq_refl eq_refl).
Defined.

(** With [name] in the header every record that is not blank is kept. *)
Lemma read_rows_named (fieldnames : list string) (failure : option exn)
    (env : environment) (s : sender) (records : list (list string)) :
  existsb (fun name => String.eqb name "name") fieldnames = true ->
  forall contacts,
    Csv.read_rows fieldnames records failure contacts env s
    = match failure with
      | Some e => (Raises e, s)
      | None =>
          (Returns
             (contacts
                ++ map (Csv.dict_row fieldnames) (Csv.data_records records))%list,
           s)
      end.
Proof.
  intros Hname. induction records as [|record rest IH]; intros contacts.
  - cbn. rewrite app_nil_r. now destruct failure.
  - destruct record as [|x record]; [exact (IH contacts)|].
    cbn [Csv.read_rows Csv.data_records filter map].
    rewrite (proj1 (dict_row_has_key fieldnames (x :: record)) "name"), Hname.
    rewrite IH. destruct failure; [reflexivity|].
    now rewrite <- app_assoc.
Qed.

Lemma existsb_eqb_sym (key : string) (names : list string) :
  existsb (fun name => String.eqb name key) names
  = existsb (String.eqb key) names.
Proof.
  induction names as [|n ns IH]; [reflexivity|].
  cbn. now rewrite IH, String.eqb_sym.
Qed.

Lemma forallb_map_has_name (fieldnames : list string)
    (records : list (list string)) :
  existsb (String.eqb "name") fieldnames = true ->
  forallb (fun r => Csv.has_key r (Some "name"))
    (map (Csv.dict_row fieldnames) records) = true.
Proof.
  intros H. induction records as [|r rs IH]; [reflexivity|].
  cbn [map forallb].
  now rewrite (proj1 (dict_row_has_key fieldnames r) "name"),
    existsb_eqb_sym, H, IH.
Qed.

(** X14 -- Loading a file that has a [name] column and reads to its end.
    The rows returned are the records after the header that are not blank,
    one row each and in the order of the file, every row has the field
    [name], and nothing is logged. *)
Theorem csv_with_name_column (fieldnames : list string)
    (records : list (list string)) (env : environment) (s : sender) :
  existsb (String.eqb "name") fieldnames = true ->
  let rows := map (Csv.dict_row fieldnames) (Csv.data_records records) in
  Csv.load_contacts_from_csv (Csv.Records (fieldnames :: records) None) env s
  = (Returns rows, s)
  /\ forallb (fun r => Csv.has_key r (Some "name")) rows = true
  /\ List.length rows = List.length (Csv.data_records records).
Proof.
  intros H. cbv zeta. split; [|split].
  - unfold Csv.load_contacts_from_csv, try_except.
    rewrite <- existsb_eqb_sym in H.
    now rewrite (read_rows_named fieldnames None env s records H []).
  - now apply forallb_map_has_name.
  - apply length_map.
Qed.

Lemma csv_with_name_column_witness :
  existsb (String.eqb "name") ["name"; "city"] = true
  /\ Csv.load_contacts_from_csv
       (Csv.Records [["name"; "city"]; ["Ana"; "Lima"]; []; ["Bob"]] None)
       no_match started
     = (Returns [ [(Some "name", Csv.Str "Ana"); (Some "city", Csv.Str "Lima")];
                  [(Some "name", Csv.Str "Bob"); (Some "city", Csv.Missing)] ],
        started).
Proof.
  split; [reflexivity|].
  exact (proj1 (csv_with_name_column ["name"; "city"]
                  [["Ana"; "Lima"]; []; ["Bob"]] no_match started eq_refl)).
Defined.

Lemma read_rows_failing (fieldnames : list string) (e : exn)
    (env : environment) (s : sender) (records : list (list string)) :
  forall contacts,
    Csv.read_rows fieldnames records (Some e) contacts env s = (Raises e, s)
    \/ Csv.read_rows fieldnames records (Some e) contacts env s
       = (Returns [], step env (Log CsvNeedsName) s).
Proof.
  induction records as [|record rest IH]; intros contacts.
  - now left.
  - destruct record as [|x record]; [exact (IH contacts)|].
    cbn [Csv.read_rows].
    destruct (Csv.has_key _ _); [apply IH | now right].
Qed.

(** X15 -- Errors while loading.  [load_contacts_from_csv] never raises.
    When the file cannot be opened, or its reading raises at any point,
    the result is the empty list, whatever rows had been read, and exactly
    one line is logged: the error, or the missing [name] column when a row
    without it was met first. *)
Theorem csv_read_error (f : Csv.file) (env : environment) (s : sender) :
  (exists rows, fst (Csv.load_contacts_from_csv f env s) = Returns rows)
  /\ (read_fails f = true ->
      fst (Csv.load_contacts_from_csv f env s) = Returns []
      /\ exists line,
           trace (snd (Csv.load_contacts_from_csv f env s))
           = (trace s ++ [Log line])%list
           /\ (line = CsvNeedsName \/ exists e, line = CsvError e)).
Proof.
  split.
  - unfold Csv.load_contacts_from_csv, try_except.
    destruct f as [e|[|fieldnames records] failure].
    + now exists [].
    + destruct failure; eexists; reflexivity.
    + destruct (Csv.read_rows fieldnames records failure [] env s)
        as [[rows|e] s1]; eexists; reflexivity.
  - unfold read_fails, Csv.load_contacts_from_csv, try_except.
    destruct f as [e|[|fieldnames records] [e|]]; try discriminate; intros _.
    + split; [reflexivity|]. exists (CsvError e). split; [reflexivity|].
      right. now exists e.
    + split; [reflexivity|]. exists (CsvError e). split; [reflexivity|].
      right. now exists e.
    + destruct (read_rows_failing fieldnames e env s records []) as [E|E];
        rewrite E.
      * split; [reflexivity|]. exists (CsvError e). split; [reflexivity|].
        right. now exists e.
      * split; [reflexivity|]. exists CsvNeedsName. split; [reflexivity|].
        now left.
Qed.

Lemma csv_read_error_witness :
  read_fails
    (Csv.Records [["name"]; ["Ana"]; ["Bob"]] (Some (OtherException "decode")))
  = true
  /\ fst (Csv.load_contacts_from_csv
            (Csv.Records [["name"]; ["Ana"]; ["Bob"]]
               (Some (OtherException "decode")))
            no_match started)
     = Returns [].
Proof.
  split; [reflexivity|].
  exact (proj1 (proj2 (csv_read_error
                         (Csv.Records [["name"]; ["Ana"]; ["Bob"]]
                            (Some (OtherException "decode")))
                         no_match started) eq_refl)).
Defined.

(** ** What the operations leave as it is *)

Section Framed.

Variable R : environment -> sender -> sender -> Prop.
Hypothesis R_refl : forall env s, R env s s.
Hypothesis R_trans :
  forall env s1 s2 s3, R env s1 s2 -> R env s2 s3 -> R env s1 s3.
Hypothesis R_step : forall env ev s, R env s (step env ev s).

Lemma framed_ret {A : Type} (a : A) : framed R (ret a).
Proof. intros env s. apply R_refl. Qed.

Lemma framed_raise {A : Type} (e : exn) : framed R (@raise A e).
Proof. intros env s. apply R_refl. Qed.

Lemma framed_bind {A B : Type} (m : M A) (k : A -> M B) :
  framed R m -> (forall a, framed R (k a)) -> framed R (bind m k).
Proof.
  intros Hm Hk env s. unfold bind. specialize (Hm env s).
  destruct (m env s) as [[a|e] s1]; cbn [snd] in *; [|exact Hm].
  exact (R_trans env s s1 _ Hm (Hk a env s1)).
Qed.

Lemma framed_try_except {A : Type} (body : M A) (handler : exn -> M A) :
  framed R body -> (forall e, framed R (handler e)) ->
  framed R (try_except body handler).
Proof.
  intros Hm Hk env s. unfold try_except. specialize (Hm env s).
  destruct (body env s) as [[a|e] s1]; cbn [snd] in *; [exact Hm|].
  exact (R_trans env s s1 _ Hm (Hk e env s1)).
Qed.

Lemma framed_attempt {A : Type} (body : M A) :
  framed R body -> framed R (attempt body).
Proof.
  intros Hm env s. unfold attempt. specialize (Hm env s).
  now destruct (body env s).
Qed.

Lemma framed_call {T : Type} (c : command T) : framed R (call c).
Proof. intros env s. apply R_step. Qed.

Lemma framed_driver_call {T : Type} (c : command T) : framed R (driver_call c).
Proof.
  intros env s. unfold driver_call.
  destruct (driver s); [apply R_step | apply R_refl].
Qed.

Lemma framed_sleep (seconds : nat) : framed R (sleep seconds).
Proof. intros env s. apply R_step. Qed.

Lemma framed_log (line : log_line) : framed R (log line).
Proof. intros env s. apply R_step. Qed.

Lemma framed_get_cancel_requested : framed R get_cancel_requested.
Proof. intros env s. apply R_refl. Qed.

Lemma framed_get_driver : framed R get_driver.
Proof. intros env s. apply R_refl. Qed.

Ltac framed_step :=
  match goal with
  | |- framed _ (bind _ _) => apply framed_bind; [|intros ?]
  | |- framed _ (try_except _ _) => apply framed_try_except; [|intros ?]
  | |- framed _ (attempt _) => apply framed_attempt
  | |- framed _ (call _) => apply framed_call
  | |- framed _ (driver_call _) => apply framed_driver_call
  | |- framed _ (sleep _) => apply framed_sleep
  | |- framed _ (log _) => apply framed_log
  | |- framed _ (ret _) => apply framed_ret
  | |- framed _ (raise _) => apply framed_raise
  | |- framed _ get_cancel_requested => apply framed_get_cancel_requested
  | |- framed _ get_driver => apply framed_get_driver
  | |- framed _ (if ?b then _ else _) => destruct b
  | |- framed _ (match ?x with _ => _ end) => destruct x
  | |- framed _ _ => solve [auto]
  end.

Lemma framed_locate_box (xpaths : list string) :
  forall box, framed R (locate_box xpaths box).
Proof.
  induction xpaths as [|xpath rest IH]; intros box; cbn [locate_box];
    repeat framed_step.
Qed.

Lemma framed_try_patterns (patterns : list string) :
  framed R (try_patterns patterns).
Proof.
  induction patterns as [|xpath rest IH]; cbn [try_patterns];
    unfold click_first; repeat framed_step.
Qed.

Lemma framed_search_contact (contact : string) :
  framed R (search_contact contact).
Proof.
  pose proof framed_locate_box. pose proof framed_try_patterns.
  unfold search_contact, search_contact_body, type_contact, open_chat,
    open_direct.
  repeat framed_step.
Qed.

Lemma framed_dismiss_popup (buttons : list element) :
  framed R (dismiss_popup buttons).
Proof.
  induction buttons as [|button rest IH]; cbn [dismiss_popup];
    repeat framed_step.
Qed.

Lemma framed_type_lines (box : element) (lines : list string) :
  framed R (type_lines box lines).
Proof.
  induction lines as [|line rest IH]; cbn [type_lines]; repeat framed_step.
Qed.

Lemma framed_send_message (message : string) :
  framed R (send_message message).
Proof.
  pose proof framed_locate_box. pose proof framed_dismiss_popup.
  pose proof framed_type_lines.
  unfold send_message, send_message_body. repeat framed_step.
Qed.

Lemma framed_wait_between (seconds : nat) : framed R (wait_between seconds).
Proof.
  induction seconds as [|k IH]; cbn [wait_between]; repeat framed_step.
Qed.

Lemma framed_send_to (i total : nat) (c : contact) (message : string)
    (delay : Z) (n : counts) :
  framed R (send_to i total c message delay n).
Proof.
  pose proof framed_search_contact. pose proof framed_send_message.
  pose proof framed_wait_between.
  unfold send_to, deliver. repeat framed_step.
Qed.

Lemma framed_send_loop (total : nat) (message : string) (delay : Z)
    (contacts : list contact) :
  forall i n, framed R (send_loop i total contacts message delay n).
Proof.
  pose proof framed_send_to.
  induction contacts as [|c rest IH]; intros i n; cbn [send_loop];
    repeat framed_step.
Qed.

Hypothesis R_running :
  forall env b s, R env s (snd (set_is_running b env s)).

Lemma framed_send_bulk_messages (contacts : list contact) (message : string)
    (delay : Z) :
  framed R (send_bulk_messages contacts message delay).
Proof.
  pose proof framed_send_loop.
  assert (forall b, framed R (set_is_running b))
    by (intros b env s; apply R_running).
  unfold send_bulk_messages. repeat framed_step.
Qed.

Lemma framed_quit : framed R quit.
Proof.
  assert (forall b, framed R (set_is_running b))
    by (intros b env s; apply R_running).
  unfold quit. repeat framed_step.
Qed.

End Framed.

Lemma advances_refl (env : environment) (s : sender) : advances env s s.
Proof. unfold advances. repeat split; auto. Qed.

Lemma advances_trans (env : environment) (s1 s2 s3 : sender) :
  advances env s1 s2 -> advances env s2 s3 -> advances env s1 s3.
Proof.
  intros (D1 & C1 & Q1 & T1) (D2 & C2 & Q2 & T2).
  repeat split; [congruence | auto | | lia].
  intros Q. now rewrite (Q2 Q), (Q1 Q).
Qed.

Lemma advances_step (env : environment) (ev : event) (s : sender) :
  advances env s (step env ev s).
Proof.
  repeat split; cbn.
  - now intros ->.
  - intros Q. now rewrite (Q (clock s)), orb_false_r.
  - lia.
Qed.

Lemma advances_running (env : environment) (b : bool) (s : sender) :
  advances env s (snd (set_is_running b env s)).
Proof. unfold advances. cbn. repeat split; auto. Qed.

(** X11 -- What the sender's operations never undo.  [search_contact],
    [send_message], [send_bulk_messages] and [quit] leave the driver handle
    as it is and never clear [cancel_requested]: a cancellation asked for
    is still asked for afterwards, and the flag changes only when the user
    asks; [search_contact] and [send_message] do not assign [is_running]
    either. *)
Theorem sender_frame (env : environment) (s : sender) (identifier message : string)
    (contacts : list contact) (delay : Z) :
  advances env s (snd (search_contact identifier env s))
  /\ advances env s (snd (send_message message env s))
  /\ advances env s (snd (send_bulk_messages contacts message delay env s))
  /\ advances env s (snd (quit env s))
  /\ is_running (snd (search_contact identifier env s)) = is_running s
  /\ is_running (snd (send_message message env s)) = is_running s.
Proof.
  split; [apply (framed_search_contact advances advances_refl advances_trans
                   advances_step)|].
  split; [apply (framed_send_message advances advances_refl advances_trans
                   advances_step)|].
  split; [apply (framed_send_bulk_messages advances advances_refl
                   advances_trans advances_step advances_running)|].
  split; [apply (framed_quit advances advances_refl advances_trans
                   advances_step advances_running)|].
  assert (Hr : forall env s, same_running env s s) by reflexivity.
  assert (Ht : forall env s1 s2 s3, same_running env s1 s2 ->
                 same_running env s2 s3 -> same_running env s1 s3)
    by (unfold same_running; intros; congruence).
  assert (Hs : forall env ev s, same_running env s (step env ev s))
    by reflexivity.
  split;
    [apply (framed_search_contact same_running Hr Ht Hs)
    |apply (framed_send_message same_running Hr Ht Hs)].
Qed.

(** ** Edge cases of the session *)

(** X6 -- Before [start].  With no browser handle, [search_contact] and
    [send_message] send nothing to the browser: unless cancellation was
    asked for, they log that the box was not found; both return [False]. *)
Theorem without_browser (identifier message : string) (env : environment)
    (s : sender) :
  driver s = None ->
  search_contact identifier env s
  = (Returns false,
     if cancel_requested s then s else step env (Log NoSearchBox) s)
  /\ send_message message env s
     = (Returns false,
        if cancel_requested s then s else step env (Log NoMessageBox) s).
Proof.
  intros H.
  unfold search_contact, send_message, bind at 1 3, get_cancel_requested.
  destruct (cancel_requested s); [now split|].
  unfold try_except, search_contact_body, send_message_body, bind.
  now rewrite !(locate_box_no_driver _ env s H None).
Qed.

Lemma without_browser_witness :
  driver idle = None
  /\ search_contact "Ana" no_match idle
     = (Returns false, step no_match (Log NoSearchBox) idle)
  /\ send_message "Hello" no_match idle
     = (Returns false, step no_match (Log NoMessageBox) idle).
Proof.
  split; [reflexivity|].
  exact (without_browser "Ana" "Hello" no_match idle eq_refl).
Defined.

(** X1 -- [send_message] never raises.  Whatever the browser does, the
    result is a boolean; an exception that leaves the body (a failing
    clear, key or lookup of the popup aside, which is passed over) is
    logged as a failure to send and gives [False]. *)
Theorem send_message_never_raises (message : string) (env : environment)
    (s : sender) :
  (exists b, fst (send_message message env s) = Returns b)
  /\ (forall buttons,
        exists r,
          fst (attempt (dismiss_popup buttons) env s) = Returns r)
  /\ (cancel_requested s = false ->
      match send_message_body message env s with
      | (Returns b, s1) => send_message message env s = (Returns b, s1)
      | (Raises e, s1) =>
          send_message message env s
          = (Returns false, step env (Log (FailedToSend e)) s1)
      end).
Proof.
  split; [apply never_raises_send_message|].
  split.
  - intros buttons. unfold attempt.
    destruct (dismiss_popup buttons env s) as [r s1]. now exists r.
  - intros H.
    assert (E : send_message message env s
                = try_except (send_message_body message)
                    (fun e => log (FailedToSend e);; ret false) env s)
      by (unfold send_message, bind, get_cancel_requested; now rewrite H).
    rewrite E. unfold try_except.
    now destruct (send_message_body message env s) as [[b|e] s1].
Qed.

(** X7 -- A flag left set.  [send_bulk_messages] does not clear
    [cancel_requested]: entered with the flag set, it works on no contact,
    whatever the list, logs the cancellation and a report of zero sent and
    zero failed, and leaves the flag set. *)
Theorem bulk_with_flag_set (c : contact) (rest : list contact)
    (message : string) (delay : Z) (env : environment) (s : sender) :
  cancel_requested s = true ->
  let s' := snd (send_bulk_messages (c :: rest) message delay env s) in
  fst (send_bulk_messages (c :: rest) message delay env s) = Returns tt
  /\ trace s'
     = (trace s
          ++ [ Log (SendingMessagesTo (S (List.length rest)));
               Log Cancelled;
               Log (Done 0 0) ])%list
  /\ cancel_requested s' = true
  /\ is_running s' = false.
Proof.
  intros H. cbv zeta.
  set (s0 := step env (Log (SendingMessagesTo (S (List.length rest)))) s).
  assert (E : send_loop 1 (S (List.length rest)) (c :: rest) message delay
                {| success_count := 0; fail_count := 0 |} env s0
              = (Returns {| success_count := 0; fail_count := 0 |},
                 step env (Log Cancelled) s0)).
  { rewrite send_loop_cons. unfold s0. cbn [cancel_requested step].
    now rewrite H. }
  unfold send_bulk_messages. cbn [List.length].
  rewrite (bind_returns (log (SendingMessagesTo (S (List.length rest)))) _
             env s s0 tt eq_refl).
  rewrite (bind_returns _ _ _ _ _ _ E).
  unfold s0. cbn. rewrite H, <- !app_assoc. repeat split.
Qed.

Lemma bulk_with_flag_set_witness :
  cancel_requested cancelling = true
  /\ trace (snd (send_bulk_messages [[("name", "Ana")]; [("name", "Bob")]]
                   "Hello" 3 all_found cancelling))
     = [Log (SendingMessagesTo 2); Log Cancelled; Log (Done 0 0)].
Proof.
  split; [reflexivity|].
  exact (proj1 (proj2 (bulk_with_flag_set [("name", "Ana")]
                         [[("name", "Bob")]] "Hello" 3 all_found cancelling
                         eq_refl))).
Defined.

(** X10 -- A contact without [name].  When the first contact has no field
    [name] (and no cancellation comes first), [send_bulk_messages] raises
    [KeyError]: nothing is sent, no report is logged and [is_running] is
    not reset. *)
Theorem contact_without_name (c : contact) (rest : list contact)
    (message : string) (delay : Z) (env : environment) (s : sender) :
  getitem c "name" = None ->
  cancel_requested s = false ->
  cancel_pressed env (clock s) = false ->
  let s' := snd (send_bulk_messages (c :: rest) message delay env s) in
  fst (send_bulk_messages (c :: rest) message delay env s)
  = Raises (KeyError "name")
  /\ trace s'
     = (trace s ++ [Log (SendingMessagesTo (S (List.length rest)))])%list
  /\ is_running s' = is_running s.
Proof.
  intros Hn Hc Hp. cbv zeta.
  set (s0 := step env (Log (SendingMessagesTo (S (List.length rest)))) s).
  assert (E : send_loop 1 (S (List.length rest)) (c :: rest) message delay
                {| success_count := 0; fail_count := 0 |} env s0
              = (Raises (KeyError "name"), s0)).
  { rewrite send_loop_cons. unfold s0. cbn [cancel_requested step].
    rewrite Hc, Hp. cbn [orb]. unfold send_to, bind. now rewrite Hn. }
  unfold send_bulk_messages. cbn [List.length].
  rewrite (bind_returns (log (SendingMessagesTo (S (List.length rest)))) _
             env s s0 tt eq_refl).
  rewrite (bind_raises _ _ _ _ _ _ E).
  unfold s0. cbn. repeat split.
Qed.

Lemma contact_without_name_witness :
  getitem [("phone", "14155552671")] "name" = None
  /\ cancel_requested started = false
  /\ cancel_pressed all_found (clock started) = false
  /\ fst (send_bulk_messages [[("phone", "14155552671")]; [("name", "Bob")]]
            "Hello" 3 all_found started)
     = Raises (KeyError "name").
Proof.
  do 3 (split; [reflexivity|]).
  exact (proj1 (contact_without_name [("phone", "14155552671")]
                  [[("name", "Bob")]] "Hello" 3 all_found started
                  eq_refl eq_refl eq_refl)).
Defined.

Lemma repeat_snoc {A : Type} (x : A) (k : nat) :
  (x :: repeat x k = repeat x k ++ [x])%list.
Proof. induction k as [|k IH]; [reflexivity|]. cbn. now rewrite <- IH. Qed.

Lemma wait_between_run (seconds : nat) (env : environment) :
  forall s,
  exists k s',
    wait_between seconds env s = (Returns tt, s')
    /\ trace s' = (trace s ++ repeat (Sleep 1) k)%list
    /\ k <= seconds
    /\ (cancel_requested s = true -> k = 0)
    /\ (never_cancels env -> cancel_requested s = false -> k = seconds).
Proof.
  induction seconds as [|n IH]; intros s; cbn [wait_between].
  - exists 0, s. cbn. rewrite app_nil_r. repeat split; auto.
  - unfold bind at 1, get_cancel_requested.
    destruct (cancel_requested s) eqn:C.
    + exists 0, s. cbn. rewrite app_nil_r.
      repeat split; auto; try lia; try discriminate.
    + unfold bind, sleep.
      destruct (IH (step env (Sleep 1) s)) as (k & s' & E & T & L & _ & Q).
      exists (S k), s'. split; [exact E|]. split; [|split; [lia|split]].
      * rewrite T. cbn [trace step repeat]. now rewrite <- app_assoc.
      * discriminate.
      * intros Hq _. f_equal. apply (Q Hq). cbn.
        now rewrite C, (Hq (clock s)).
Qed.

(** X12 -- The wait between two messages.  It only sleeps, one second at
    a time and at most [delay] times (never for a delay of zero or less);
    it sleeps [delay] times when nobody cancels and not at all when
    cancellation was asked for before. *)
Theorem wait_between_sleeps (delay : Z) (env : environment) (s : sender) :
  exists k s',
    wait_between (Z.to_nat delay) env s = (Returns tt, s')
    /\ trace s' = (trace s ++ repeat (Sleep 1) k)%list
    /\ (Z.of_nat k <= Z.max 0 delay)%Z
    /\ (cancel_requested s = true -> k = 0)
    /\ (never_cancels env -> cancel_requested s = false ->
        k = Z.to_nat delay).
Proof.
  destruct (wait_between_run (Z.to_nat delay) env s)
    as (k & s' & E & T & L & C & Q).
  exists k, s'. repeat split; auto. lia.
Qed.

(** ** Runs that nobody cancels, and what the report counts *)

Lemma send_loop_quiet (total : nat) (message : string) (delay : Z)
    (env : environment) (contacts : list contact) :
  never_cancels env ->
  Forall (fun c => has_name c = true) contacts ->
  forall i n s,
    cancel_requested s = false ->
    exists n' s' evs,
      send_loop i total contacts message delay n env s = (Returns n', s')
      /\ trace s' = (trace s ++ evs)%list
      /\ attempts evs = List.length contacts
      /\ success_count n' + fail_count n'
         = success_count n + fail_count n + List.length contacts
      /\ cancel_requested s' = false.
Proof.
  intros Hq. induction 1 as [|c rest Hc _ IH]; intros i n s Hs.
  - exists n, s, []. cbn. rewrite app_nil_r. repeat split; auto; lia.
  - rewrite send_loop_cons, Hs.
    destruct (send_to_run i total c message delay n env s Hc)
      as (name & n1 & s1 & evs1 & E1 & T1 & F1 & N1).
    rewrite (bind_returns _ _ _ _ _ _ E1).
    assert (Hs1 : cancel_requested s1 = false).
    { pose proof (framed_send_to advances advances_refl advances_trans
                    advances_step i total c message delay n env s)
        as (_ & _ & Q & _).
      rewrite E1 in Q. cbn [snd] in Q. now rewrite (Q Hq). }
    destruct (IH (S i) n1 s1 Hs1) as (n2 & s2 & evs2 & E2 & T2 & A2 & C2 & Q2).
    exists n2, s2, ([Log (SendingTo i total name)] ++ evs1 ++ evs2)%list.
    split; [exact E2|]. split; [|split; [|split; [|exact Q2]]].
    + rewrite T2, T1, <- app_assoc. reflexivity.
    + rewrite !attempts_app, (attempts_contact_events evs1 F1), A2.
      reflexivity.
    + destruct N1 as [-> | ->];
        cbn [succeeded failed success_count fail_count] in C2;
        cbn [List.length]; lia.
Qed.

(** X8 -- A run that nobody cancels.  When the flag is not set and the
    user never asks for cancellation, [send_bulk_messages] works on every
    contact of the list, once each, and the two counts of its report add up
    to the number of contacts. *)
Theorem uncancelled_run (contacts : list contact) (message : string)
    (delay : Z) (env : environment) (s : sender) :
  never_cancels env ->
  cancel_requested s = false ->
  forallb has_name contacts = true ->
  contacts <> [] ->
  exists n s' evs,
    send_bulk_messages contacts message delay env s = (Returns tt, s')
    /\ trace s'
       = (trace s
            ++ Log (SendingMessagesTo (List.length contacts))
            :: evs ++ [Log (Done (success_count n) (fail_count n))])%list
    /\ attempts evs = List.length contacts
    /\ success_count n + fail_count n = List.length contacts
    /\ is_running s' = false.
Proof.
  intros Hq Hs Hn Hne. apply forallb_Forall in Hn.
  destruct contacts as [|c rest]; [now elim Hne|].
  unfold send_bulk_messages.
  set (contacts := c :: rest) in *.
  set (s0 := step env (Log (SendingMessagesTo (List.length contacts))) s).
  rewrite (bind_returns (log (SendingMessagesTo (List.length contacts))) _
             env s s0 tt eq_refl).
  assert (Hs0 : cancel_requested s0 = false)
    by (unfold s0; cbn; now rewrite Hs, (Hq (clock s))).
  destruct (send_loop_quiet (List.length contacts) message delay env contacts
              Hq Hn 1 {| success_count := 0; fail_count := 0 |} s0 Hs0)
    as (n & s1 & evs & E & T & A & C & _).
  rewrite (bind_returns _ _ _ _ _ _ E).
  exists n, (snd (set_is_running false env
                    (step env (Log (Done (success_count n) (fail_count n)))
                       s1))), evs.
  split; [reflexivity|]. split; [|split; [exact A | split; [exact C|]]].
  - cbn [set_is_running snd trace step]. rewrite T. unfold s0.
    cbn [trace step]. now rewrite <- !app_assoc.
  - reflexivity.
Qed.

Lemma uncancelled_run_witness :
  never_cancels all_found
  /\ cancel_requested started = false
  /\ exists n s' evs,
       send_bulk_messages [[("name", "Ana")]; [("name", "14155552671")]]
         "Hi {name}" 1 all_found started
       = (Returns tt, s')
       /\ trace s'
          = (trace started
               ++ Log (SendingMessagesTo 2)
               :: evs ++ [Log (Done (success_count n) (fail_count n))])%list
       /\ attempts evs = 2
       /\ success_count n + fail_count n = 2
       /\ is_running s' = false.
Proof.
  split; [intros t; reflexivity|]. split; [reflexivity|].
  apply (uncancelled_run [[("name", "Ana")]; [("name", "14155552671")]]
           "Hi {name}" 1 all_found started);
    [intros t; reflexivity | reflexivity | reflexivity | discriminate].
Defined.

Lemma sent_lines_app (a b : list event) :
  sent_lines (a ++ b) = sent_lines a + sent_lines b.
Proof. unfold sent_lines. now rewrite filter_app, length_app. Qed.

Lemma failure_lines_app (a b : list event) :
  failure_lines (a ++ b) = failure_lines a + failure_lines b.
Proof. unfold failure_lines. now rewrite filter_app, length_app. Qed.

Lemma page_events_no_lines (evs : list event) :
  Forall page_event evs -> sent_lines evs = 0 /\ failure_lines evs = 0.
Proof.
  unfold sent_lines, failure_lines.
  induction 1 as [|ev evs H _ [IH1 IH2]]; [now split|].
  cbn [filter]. destruct ev as [T c r|k|line]; [now split | now split|].
  destruct line; try (now split); elim H.
Qed.

(** The work on a contact ends with one closing line, and the counter that
    goes up is the one the line tells. *)
Lemma deliver_run (contact_name : string) (c : contact) (message : string)
    (n : counts) (env : environment) (s : sender) :
  exists n' s' evs line,
    deliver contact_name c message n env s = (Returns n', s')
    /\ trace s' = (trace s ++ evs ++ [Log line])%list
    /\ Forall page_event evs
    /\ ((line = MessageSent contact_name /\ n' = succeeded n)
        \/ ((line = MessageNotSent contact_name
             \/ line = ContactNotFound contact_name)
            /\ n' = failed n)).
Proof.
  unfold deliver, bind.
  destruct (never_raises_search_contact contact_name env s) as [found E].
  pose proof (emits_search_contact contact_name env s) as [[evs1 [T1 F1]] _].
  destruct (search_contact contact_name env s) as [r s1].
  cbn [fst snd] in *. subst r.
  destruct found.
  - destruct (never_raises_send_message (personalize message contact_name c)
                env s1) as [sent E].
    pose proof (emits_send_message (personalize message contact_name c)
                  env s1) as [[evs2 [T2 F2]] _].
    destruct (send_message _ env s1) as [r s2]. cbn [fst snd] in *. subst r.
    destruct sent; unfold log, ret; cbn [trace step].
    + exists (succeeded n), (step env (Log (MessageSent contact_name)) s2),
        (evs1 ++ evs2)%list, (MessageSent contact_name).
      split; [reflexivity|]. split; [|split; [now apply Forall_app | auto]].
      cbn [trace step]. now rewrite T2, T1, <- !app_assoc.
    + exists (failed n), (step env (Log (MessageNotSent contact_name)) s2),
        (evs1 ++ evs2)%list, (MessageNotSent contact_name).
      split; [reflexivity|]. split; [|split; [now apply Forall_app | auto]].
      cbn [trace step]. now rewrite T2, T1, <- !app_assoc.
  - unfold log, ret.
    exists (failed n), (step env (Log (ContactNotFound contact_name)) s1),
      evs1, (ContactNotFound contact_name).
    split; [reflexivity|]. split; [|split; [exact F1 | auto]].
    cbn [trace step]. now rewrite T1, <- !app_assoc.
Qed.

Lemma send_to_lines (i total : nat) (c : contact) (message : string)
    (delay : Z) (n : counts) (env : environment) (s : sender) :
  has_name c = true ->
  exists n' s' evs,
    send_to i total c message delay n env s = (Returns n', s')
    /\ trace s' = (trace s ++ evs)%list
    /\ success_count n' = success_count n + sent_lines evs
    /\ fail_count n' = fail_count n + failure_lines evs.
Proof.
  unfold has_name, send_to. intros Hname.
  destruct (getitem c "name") as [contact_name|]; [|discriminate].
  rewrite (bind_returns (ret contact_name) _ env s s contact_name eq_refl).
  set (s0 := step env (Log (SendingTo i total contact_name)) s).
  rewrite (bind_returns (log (SendingTo i total contact_name)) _ env s s0 tt
             eq_refl).
  destruct (deliver_run contact_name c message n env s0)
    as (n' & s1 & evs & line & E & T & F & Hl).
  rewrite (bind_returns _ _ _ _ _ _ E).
  destruct (wait_between_run (Z.to_nat delay) env s1)
    as (k & s2 & W & Tw & _).
  rewrite (bind_returns _ _ _ _ _ _ W).
  exists n', s2,
    ([Log (SendingTo i total contact_name)] ++ evs ++ [Log line]
       ++ repeat (Sleep 1) k)%list.
  split; [reflexivity|]. split.
  - rewrite Tw, T. unfold s0. cbn [trace step].
    now rewrite <- !app_assoc.
  - destruct (page_events_no_lines evs F) as [P1 P2].
    assert (R1 : sent_lines (repeat (Sleep 1) k) = 0)
      by (clear; induction k; [reflexivity | assumption]).
    assert (R2 : failure_lines (repeat (Sleep 1) k) = 0)
      by (clear; induction k; [reflexivity | assumption]).
    rewrite !sent_lines_app, !failure_lines_app, P1, P2, R1, R2.
    destruct Hl as [[-> ->] | [[-> | ->] ->]]; cbn; split; lia.
Qed.

Lemma send_loop_lines (total : nat) (message : string) (delay : Z)
    (env : environment) (contacts : list contact) :
  Forall (fun c => has_name c = true) contacts ->
  forall i n s,
  exists n' s' evs,
    send_loop i total contacts message delay n env s = (Returns n', s')
    /\ trace s' = (trace s ++ evs)%list
    /\ success_count n' = success_count n + sent_lines evs
    /\ fail_count n' = fail_count n + failure_lines evs.
Proof.
  induction 1 as [|c rest Hc _ IH]; intros i n s.
  - exists n, s, []. cbn. rewrite app_nil_r. repeat split; lia.
  - rewrite send_loop_cons. destruct (cancel_requested s).
    + eexists n, _, [Log Cancelled]. cbn. repeat split; lia.
    + destruct (send_to_lines i total c message delay n env s Hc)
        as (n1 & s1 & evs1 & E1 & T1 & S1 & F1).
      rewrite (bind_returns _ _ _ _ _ _ E1).
      destruct (IH (S i) n1 s1) as (n2 & s2 & evs2 & E2 & T2 & S2 & F2).
      exists n2, s2, (evs1 ++ evs2)%list.
      split; [exact E2|]. split; [now rewrite T2, T1, <- app_assoc|].
      rewrite sent_lines_app, failure_lines_app. split; lia.
Qed.

(** X9 -- The report counts the closing lines.  In the report of
    [send_bulk_messages] the number sent is the number of lines that say a
    message was sent, and the number failed is the number of lines that say
    a message was not sent or a contact was not found. *)
Theorem report_counts_lines (contacts : list contact) (message : string)
    (delay : Z) (env : environment) (s : sender) :
  forallb has_name contacts = true ->
  contacts <> [] ->
  exists s' evs sent failed,
    send_bulk_messages contacts message delay env s = (Returns tt, s')
    /\ trace s' = (trace s ++ evs ++ [Log (Done sent failed)])%list
    /\ sent = sent_lines evs
    /\ failed = failure_lines evs.
Proof.
  intros Hn Hne. apply forallb_Forall in Hn.
  destruct contacts as [|c rest]; [now elim Hne|].
  unfold send_bulk_messages.
  set (contacts := c :: rest) in *.
  set (s0 := step env (Log (SendingMessagesTo (List.length contacts))) s).
  rewrite (bind_returns (log (SendingMessagesTo (List.length contacts))) _
             env s s0 tt eq_refl).
  destruct (send_loop_lines (List.length contacts) message delay env contacts
              Hn 1 {| success_count := 0; fail_count := 0 |} s0)
    as (n & s1 & evs & E & T & S1 & F1).
  rewrite (bind_returns _ _ _ _ _ _ E).
  exists (snd (set_is_running false env
                 (step env (Log (Done (success_count n) (fail_count n))) s1))),
    ([Log (SendingMessagesTo (List.length contacts))] ++ evs)%list,
    (success_count n), (fail_count n).
  split; [reflexivity|]. split.
  - cbn [set_is_running snd trace step]. rewrite T. unfold s0.
    cbn [trace step]. now rewrite <- !app_assoc.
  - rewrite sent_lines_app, failure_lines_app. cbn in *. split; lia.
Qed.

Lemma report_counts_lines_witness :
  forallb has_name [[("name", "Ana")]; [("name", "123")]] = true
  /\ exists s' evs sent failed,
       send_bulk_messages [[("name", "Ana")]; [("name", "123")]] "Hi" 0
         no_match started
       = (Returns tt, s')
       /\ trace s' = (trace started ++ evs ++ [Log (Done sent failed)])%list
       /\ sent = sent_lines evs
       /\ failed = failure_lines evs.
Proof.
  split; [reflexivity|].
  apply (report_counts_lines [[("name", "Ana")]; [("name", "123")]] "Hi" 0
           no_match started); [reflexivity | discriminate].
Defined.

(** ** Cancelling through the window *)

(** X13 -- The cancel button after a first run.  [send_bulk_messages]
    ends with [is_running] false and never sets it, so once a run over
    contacts has ended, [cancel_operation] changes nothing; and in a run
    entered with [is_running] false it changes nothing at any contact of
    the loop. *)
Theorem cancel_after_run (contacts : list contact) (message : string)
    (delay : Z) (env : environment) (s : sender) :
  forallb has_name contacts = true ->
  contacts <> [] ->
  let s' := snd (send_bulk_messages contacts message delay env s) in
  is_running s' = false
  /\ cancel_operation s' = s'
  /\ (forall i total first n s0,
        is_running s0 = false ->
        cancel_operation
          (snd (send_loop i total first message delay n env s0))
        = snd (send_loop i total first message delay n env s0)).
Proof.
  intros Hn Hne. cbv zeta.
  destruct (send_bulk_messages_report contacts message delay env s Hn Hne)
    as (n & s' & evs & E & _ & _ & _ & R).
  rewrite E. cbn [snd].
  split; [exact R|]. split; [unfold cancel_operation; now rewrite R|].
  intros i total first n0 s0 H0.
  assert (Hr : forall env s, same_running env s s) by reflexivity.
  assert (Ht : forall env s1 s2 s3, same_running env s1 s2 ->
                 same_running env s2 s3 -> same_running env s1 s3)
    by (unfold same_running; intros; congruence).
  assert (Hs : forall env ev s, same_running env s (step env ev s))
    by reflexivity.
  pose proof (framed_send_loop same_running Hr Ht Hs total message delay
                first i n0 env s0) as F.
  unfold same_running in F. unfold cancel_operation. now rewrite F, H0.
Qed.

Lemma cancel_after_run_witness :
  forallb has_name [[("name", "Ana")]] = true
  /\ cancel_operation
       (snd (send_bulk_messages [[("name", "Ana")]] "Hi" 0 all_found started))
     = snd (send_bulk_messages [[("name", "Ana")]] "Hi" 0 all_found started).
Proof.
  split; [reflexivity|].
  apply (cancel_after_run [[("name", "Ana")]] "Hi" 0 all_found started);
    [reflexivity | discriminate].
Defined.

(** ** Locating a box *)

Lemma found_by_weaken (xpath : string) (xpaths : list string) (e : element)
    (evs : list event) :
  Exists (found_by xpaths e) evs -> Exists (found_by (xpath :: xpaths) e) evs.
Proof.
  apply Exists_impl. intros [T c r|k|line]; cbn; try tauto.
  destruct c; try tauto. destruct r; [|tauto].
  intros [-> H]. split; [reflexivity | now right].
Qed.

Lemma found_not_raised (xpaths : list string) (e : element)
    (evs : list event) :
  Exists (found_by xpaths e) evs -> Forall raised_lookup evs -> False.
Proof.
  intros HE HF. apply Exists_exists in HE as (ev & Hin & Hf).
  rewrite Forall_forall in HF. specialize (HF ev Hin).
  destruct ev as [T c r|k|line]; cbn in *; try tauto.
  destruct c; try tauto. now destruct r.
Qed.

Lemma locate_box_run (env : environment) (xpaths : list string) :
  forall box s,
  exists r s' evs,
    locate_box xpaths box env s = (Returns r, s')
    /\ trace s' = (trace s ++ evs)%list
    /\ ((r = box /\ Forall raised_lookup evs)
        \/ exists e, r = Some e /\ Exists (found_by xpaths e) evs).
Proof.
  induction xpaths as [|xpath rest IH]; intros box s; cbn [locate_box].
  - exists box, s, []. rewrite app_nil_r. split; [reflexivity|].
    split; [reflexivity | left; split; [reflexivity | constructor]].
  - unfold bind, attempt, driver_call, call.
    destruct (driver s) as [d|].
    + destruct (respond env element (clock s) (WaitPresence xpath))
        as [e|x] eqn:W.
      * set (s1 := step env (Browser (WaitPresence xpath) (Returns e)) s).
        assert (Hfound : forall tail,
                   Exists (found_by (xpath :: rest) e)
                     (Browser (WaitPresence xpath) (Returns e) :: tail)).
        { intros tail. apply Exists_cons_hd. cbn. split; [reflexivity|].
          now left. }
        destruct (respond env bool (clock s1) (IsDisplayed e)) as [[]|x] eqn:D.
        -- subst s1. eexists (Some e), _, [_; _]. split; [reflexivity|].
           split; [cbn [trace step]; rewrite <- !app_assoc; reflexivity|].
           right. exists e. split; [reflexivity | apply Hfound].
        -- destruct (IH (Some e)
                       (step env (Browser (IsDisplayed e) (Returns false)) s1))
             as (r & s' & evs & E & T & H).
           exists r, s',
             ([Browser (WaitPresence xpath) (Returns e);
               Browser (IsDisplayed e) (Returns false)] ++ evs)%list.
           split; [exact E|].
           split; [rewrite T; subst s1; cbn [trace step];
                   now rewrite <- !app_assoc|].
           right. destruct H as [[-> _] | (e' & -> & H)].
           ++ exists e. split; [reflexivity | apply Hfound].
           ++ exists e'. split; [reflexivity|].
              apply Exists_cons_tl, Exists_cons_tl, found_by_weaken, H.
        -- destruct (IH (Some e)
                       (step env (Browser (IsDisplayed e) (Raises x)) s1))
             as (r & s' & evs & E & T & H).
           exists r, s',
             ([Browser (WaitPresence xpath) (Returns e);
               Browser (IsDisplayed e) (Raises x)] ++ evs)%list.
           split; [exact E|].
           split; [rewrite T; subst s1; cbn [trace step];
                   now rewrite <- !app_assoc|].
           right. destruct H as [[-> _] | (e' & -> & H)].
           ++ exists e. split; [reflexivity | apply Hfound].
           ++ exists e'. split; [reflexivity|].
              apply Exists_cons_tl, Exists_cons_tl, found_by_weaken, H.
      * destruct (IH box
                    (step env (Browser (WaitPresence xpath) (Raises x)) s))
          as (r & s' & evs & E & T & H).
        exists r, s', ([Browser (WaitPresence xpath) (Raises x)] ++ evs)%list.
        split; [exact E|].
        split; [rewrite T; cbn [trace step]; now rewrite <- !app_assoc|].
        destruct H as [[-> H] | (e' & -> & H)].
        -- left. split; [reflexivity|]. constructor; [exact I | exact H].
        -- right. exists e'. split; [reflexivity|].
           apply Exists_cons_tl, found_by_weaken, H.
    + destruct (IH box s) as (r & s' & evs & E & T & H).
      exists r, s', evs. split; [exact E|]. split; [exact T|].
      destruct H as [H | (e' & -> & H)]; [now left|].
      right. exists e'. split; [reflexivity | now apply found_by_weaken].
Qed.

(** X5 -- Locating a box.  The loop over the XPaths of a box never
    raises.  It ends without a box exactly when every lookup it made
    raised; the box it ends with is an element that one of the lookups
    returned, displayed or not. *)
Theorem locate_box_result (xpaths : list string) (env : environment)
    (s : sender) :
  exists r s' evs,
    locate_box xpaths None env s = (Returns r, s')
    /\ trace s' = (trace s ++ evs)%list
    /\ (r = None <-> Forall raised_lookup evs)
    /\ (forall e, r = Some e -> Exists (found_by xpaths e) evs).
Proof.
  destruct (locate_box_run env xpaths None s) as (r & s' & evs & E & T & H).
  exists r, s', evs. split; [exact E|]. split; [exact T|]. split; [split|].
  - intros ->. destruct H as [[_ H] | (e & He & _)]; [exact H | discriminate].
  - intros F. destruct H as [[-> _] | (e & _ & H)]; [reflexivity|].
    elim (found_not_raised xpaths e evs H F).
  - intros e ->. destruct H as [[H _] | (e' & He & H)]; [discriminate|].
    now injection He as ->.
Qed.

(** ** What a success means *)

Lemma click_first_clicked (xpath : string) (env : environment)
    (s s1 : sender) :
  click_first xpath env s = (Returns true, s1) ->
  exists e, ends_with (trace s1) [Browser (Click e) (Returns tt); Sleep 1].
Proof.
  unfold click_first, bind, driver_call, call, sleep, ret.
  destruct (driver s); [|discriminate].
  destruct (respond env (list element) (clock s) (FindElements xpath))
    as [[|e l]|x]; try discriminate.
  destruct (respond env unit _ (Click e)) as [[]|x]; [|discriminate].
  intros E. injection E as <-. exists e. eexists.
  cbn [trace step]. now rewrite <- app_assoc.
Qed.

Lemma try_patterns_clicked (env : environment) (patterns : list string) :
  forall s s',
    try_patterns patterns env s = (Returns (Some true), s') ->
    exists e, ends_with (trace s') [Browser (Click e) (Returns tt); Sleep 1].
Proof.
  induction patterns as [|xpath rest IH]; intros s s'; cbn [try_patterns].
  - discriminate.
  - unfold bind at 1, get_cancel_requested.
    destruct (cancel_requested s); [discriminate|].
    unfold bind, attempt.
    destruct (click_first xpath env s) as [[[]|x] s1] eqn:C.
    + intros E. injection E as <-. exact (click_first_clicked _ _ _ _ C).
    + apply IH.
    + apply IH.
Qed.

Lemma open_direct_opened (contact : string) (env : environment)
    (s s' : sender) :
  open_direct contact env s = (Returns (Some true), s') ->
  is_phone contact = true
  /\ 7 < String.length contact
  /\ exists e,
       ends_with (trace s')
         [ Browser (Get (deep_link (PyStr.replace contact "+" "")))
             (Returns tt);
           Browser (WaitPresence message_box_marker) (Returns e);
           Sleep 2 ].
Proof.
  unfold open_direct.
  destruct (is_phone contact); [|discriminate].
  destruct (Nat.ltb_spec 7 (String.length contact)) as [H|H]; [|discriminate].
  cbn [andb]. unfold bind, driver_call, call, sleep, ret.
  destruct (driver s) eqn:D; [|discriminate].
  destruct (respond env unit (clock s) (Get _)) as [[]|x]; [|discriminate].
  cbn [driver step]. rewrite D.
  destruct (respond env element _ (WaitPresence message_box_marker))
    as [e|x]; [|discriminate].
  intros E. injection E as <-. split; [reflexivity|]. split; [exact H|].
  exists e. exists (trace s). cbn [trace step]. now rewrite <- !app_assoc.
Qed.

Lemma search_contact_run (identifier : string) (env : environment)
    (s s' : sender) :
  search_contact identifier env s = (Returns true, s') ->
  (exists e, ends_with (trace s') [Browser (Click e) (Returns tt); Sleep 1])
  \/ (is_phone identifier = true
      /\ 7 < String.length identifier
      /\ exists e,
           ends_with (trace s')
             [ Browser (Get (deep_link (PyStr.replace identifier "+" "")))
                 (Returns tt);
               Browser (WaitPresence message_box_marker) (Returns e);
               Sleep 2 ]).
Proof.
  unfold search_contact, bind at 1, get_cancel_requested.
  destruct (cancel_requested s); [discriminate|].
  unfold try_except at 1, search_contact_body, bind at 1.
  destruct (locate_box search_xpath None env s) as [[[box|]|x] s1];
    [|discriminate|discriminate].
  unfold bind at 1.
  destruct (type_contact box identifier env s1) as [[[]|x] s2];
    [|discriminate].
  unfold bind at 1, open_chat, try_except.
  unfold bind at 1.
  destruct (try_patterns (xpath_patterns identifier) env s2)
    as [[[[]|]|x] s3] eqn:P.
  - intros E. injection E as <-. left.
    exact (try_patterns_clicked _ _ _ _ P).
  - discriminate.
  - destruct (open_direct identifier env s3) as [[[[]|]|x] s4] eqn:O.
    + intros E. injection E as <-. right.
      exact (open_direct_opened _ _ _ _ O).
    + discriminate.
    + discriminate.
    + destruct x; discriminate.
  - destruct x; discriminate.
Qed.

(** X4 -- What a found contact means.  [search_contact] returns [True]
    only in two ways: right after a click on a search result that returned,
    or, for a phone-like identifier longer than 7 characters, right after
    the navigation to its deep link and the wait for the message box both
    returned. *)
Theorem search_contact_found (identifier : string) (env : environment)
    (s : sender) :
  fst (search_contact identifier env s) = Returns true ->
  (exists e,
     ends_with (trace (snd (search_contact identifier env s)))
       [Browser (Click e) (Returns tt); Sleep 1])
  \/ (is_phone identifier = true
      /\ 7 < String.length identifier
      /\ exists e,
           ends_with (trace (snd (search_contact identifier env s)))
             [ Browser (Get (deep_link (PyStr.replace identifier "+" "")))
                 (Returns tt);
               Browser (WaitPresence message_box_marker) (Returns e);
               Sleep 2 ]).
Proof.
  destruct (search_contact identifier env s) as [r s'] eqn:E.
  cbn [fst snd]. intros ->.
  exact (search_contact_run _ _ _ _ E).
Qed.

Lemma search_contact_found_witness :
  fst (search_contact "14155552671" no_match started) = Returns true
  /\ ((exists e,
         ends_with (trace (snd (search_contact "14155552671" no_match started)))
           [Browser (Click e) (Returns tt); Sleep 1])
      \/ (is_phone "14155552671" = true
          /\ 7 < String.length "14155552671"
          /\ exists e,
               ends_with
                 (trace (snd (search_contact "14155552671" no_match started)))
                 [ Browser
                     (Get (deep_link (PyStr.replace "14155552671" "+" "")))
                     (Returns tt);
                   Browser (WaitPresence message_box_marker) (Returns e);
                   Sleep 2 ])).
Proof.
  split; [reflexivity|].
  exact (search_contact_found "14155552671" no_match started eq_refl).
Defined.

(** ** What [send_message] types *)

Lemma bind_inv {A B : Type} (m : M A) (k : A -> M B) (env : environment)
    (s s' : sender) (b : B) :
  bind m k env s = (Returns b, s') ->
  exists a s1, m env s = (Returns a, s1) /\ k a env s1 = (Returns b, s').
Proof.
  unfold bind. destruct (m env s) as [[a|x] s1]; [|discriminate].
  intros H. now exists a, s1.
Qed.

Lemma keys_sent_app (evs evs' : list event) :
  keys_sent (evs ++ evs') = (keys_sent evs ++ keys_sent evs')%list.
Proof. apply flat_map_app. Qed.

Lemma follows_no_keys (s s' : sender) :
  follows no_keys s s' -> keys_sent (trace s') = keys_sent (trace s).
Proof.
  intros [(evs & T & F) _]. rewrite T, keys_sent_app.
  assert (keys_sent evs = []) as ->; [|apply app_nil_r].
  clear T. induction F as [|ev evs H _ IH]; [reflexivity|].
  unfold keys_sent in *. cbn [flat_map]. rewrite IH, app_nil_r.
  destruct ev as [T0 c r| |]; [|reflexivity|reflexivity].
  destruct c; try reflexivity. destruct H.
Qed.

Lemma quiet_run {A : Type} (m : M A) (env : environment) (s s' : sender)
    (r : outcome A) :
  emits no_keys m -> m env s = (r, s') ->
  keys_sent (trace s') = keys_sent (trace s).
Proof.
  intros H E. specialize (H env s). rewrite E in H.
  exact (follows_no_keys _ _ H).
Qed.

Lemma locate_box_no_keys (xpaths : list string) :
  forall box, emits no_keys (locate_box xpaths box).
Proof.
  induction xpaths as [|xpath rest IH]; intros box; cbn [locate_box];
    emits_all; apply IH.
Qed.

Lemma dismiss_popup_no_keys (buttons : list element) :
  emits no_keys (dismiss_popup buttons).
Proof.
  induction buttons as [|button rest IH]; cbn [dismiss_popup]; emits_all.
Qed.

Lemma send_keys_run (box : element) (k : keys) (env : environment)
    (s s' : sender) (r : outcome unit) :
  call (SendKeys box k) env s = (r, s') ->
  keys_sent (trace s') = (keys_sent (trace s) ++ [k])%list.
Proof.
  unfold call. intros E. injection E as _ <-.
  cbn [trace step]. now rewrite keys_sent_app.
Qed.

Lemma type_lines_run (box : element) (env : environment)
    (lines : list string) :
  forall s s',
    type_lines box lines env s = (Returns tt, s') ->
    keys_sent (trace s')
    = (keys_sent (trace s)
       ++ flat_map (fun line => [Text line; ShiftEnter]) lines)%list.
Proof.
  induction lines as [|line rest IH]; intros s s'; cbn [type_lines].
  - unfold ret. intros E. injection E as <-. now rewrite app_nil_r.
  - intros E.
    apply bind_inv in E as ([] & s1 & E1 & E).
    apply bind_inv in E as ([] & s2 & E2 & E).
    rewrite (IH _ _ E), (send_keys_run _ _ _ _ _ _ E2),
      (send_keys_run _ _ _ _ _ _ E1).
    cbn [flat_map]. now rewrite <- !app_assoc.
Qed.

Lemma send_message_run (message : string) (env : environment)
    (s s' : sender) :
  send_message message env s = (Returns true, s') ->
  keys_sent (trace s') = (keys_sent (trace s) ++ typing message)%list.
Proof.
  unfold send_message. intros E.
  apply bind_inv in E as (cancel & s0 & E0 & E).
  unfold get_cancel_requested in E0. injection E0 as <- <-.
  destruct (cancel_requested s); [discriminate E|].
  unfold try_except in E.
  destruct (send_message_body message env s) as [[b|x] sb] eqn:B;
    [|discriminate E].
  injection E as -> ->. unfold send_message_body in B.
  apply bind_inv in B as (found & s1 & E1 & B).
  destruct found as [box|]; [|discriminate B].
  apply bind_inv in B as (popup & s2 & E2 & B).
  apply bind_inv in B as ([] & s3 & E3 & B).
  apply bind_inv in B as ([] & s4 & E4 & B).
  apply bind_inv in B as ([] & s5 & E5 & B).
  apply bind_inv in B as ([] & s6 & E6 & B).
  apply bind_inv in B as ([] & s7 & E7 & B).
  unfold ret in B. injection B as <-.
  assert (emits no_keys (sleep 1)) as Q7 by emits_all.
  assert (emits no_keys (call (Clear box))) as Q3 by emits_all.
  assert (emits no_keys
            (attempt (buttons <- driver_call (FindElements popup_button_xpath);;
                      dismiss_popup buttons))) as Q2
    by (emits_all; apply dismiss_popup_no_keys).
  rewrite (quiet_run _ _ _ _ _ Q7 E7).
  rewrite (send_keys_run _ _ _ _ _ _ E6), (send_keys_run _ _ _ _ _ _ E5).
  rewrite (type_lines_run _ _ _ _ _ E4).
  rewrite (quiet_run _ _ _ _ _ Q3 E3), (quiet_run _ _ _ _ _ Q2 E2).
  rewrite (quiet_run _ _ _ _ _ (locate_box_no_keys _ _) E1).
  unfold typing. now rewrite <- !app_assoc.
Qed.

(** X2 -- What a sent message typed.  When [send_message] returns
    [True], the keys it sent to the page are, in order: each line of the
    message followed by Shift+Enter, then one Backspace and one Enter;
    nothing else was typed. *)
Theorem send_message_typed (message : string) (env : environment)
    (s : sender) :
  fst (send_message message env s) = Returns true ->
  keys_sent (trace (snd (send_message message env s)))
  = (keys_sent (trace s) ++ typing message)%list.
Proof.
  destruct (send_message message env s) as [r s'] eqn:E.
  cbn [fst snd]. intros ->.
  exact (send_message_run _ _ _ _ E).
Qed.

Lemma send_message_typed_witness :
  fst (send_message ("Hi" ++ newline ++ "there") no_match started)
  = Returns true
  /\ keys_sent
       (trace (snd (send_message ("Hi" ++ newline ++ "there")
                      no_match started)))
     = (keys_sent (trace started)
        ++ typing ("Hi" ++ newline ++ "there"))%list.
Proof.
  split; [reflexivity|].
  exact (send_message_typed ("Hi" ++ newline ++ "there") no_match started
           eq_refl).
Defined.

Lemma split_on_cons (sep : ascii) (s : string) :
  forall cur, exists piece rest, PyStr.split_on sep cur s = piece :: rest.
Proof.
  induction s as [|c s IH]; intros cur; cbn [PyStr.split_on].
  - now exists cur, [].
  - destruct (Ascii.eqb c sep); [now eexists _, _ | apply IH].
Qed.

Lemma join_split_on (s : string) :
  forall cur, join newline (PyStr.split_on LF cur s) = cur ++ s.
Proof.
  induction s as [|c s IH]; intros cur; cbn [PyStr.split_on].
  - cbn [join]. now rewrite append_nil_r.
  - destruct (Ascii.eqb_spec c LF) as [->|_].
    + specialize (IH EmptyString).
      destruct (split_on_cons LF s EmptyString) as (piece & rest & E).
      rewrite E in *. cbn [join] in *. rewrite IH. reflexivity.
    + rewrite IH, append_assoc. reflexivity.
Qed.

Lemma split_on_no_sep (sep : ascii) (s : string) :
  forall cur,
    PyStr.all_chars (fun c => negb (Ascii.eqb c sep)) cur = true ->
    Forall (fun piece =>
              PyStr.all_chars (fun c => negb (Ascii.eqb c sep)) piece = true)
      (PyStr.split_on sep cur s).
Proof.
  induction s as [|c s IH]; intros cur H; cbn [PyStr.split_on].
  - now constructor.
  - destruct (Ascii.eqb c sep) eqn:E.
    + constructor; [exact H | now apply IH].
    + apply IH. rewrite all_chars_app, H. cbn [PyStr.all_chars andb].
      now rewrite E.
Qed.

(** X3 -- The lines that [send_message] types.  [message.split('\n')]
    gives at least one line, no line holds a line feed, and the lines joined
    by line feeds are the message again: with a soft break between the
    lines, what is typed is the message. *)
Theorem message_lines (message : string) :
  PyStr.split_sep message LF <> []
  /\ Forall (fun line =>
               PyStr.all_chars (fun c => negb (Ascii.eqb c LF)) line = true)
       (PyStr.split_sep message LF)
  /\ join newline (PyStr.split_sep message LF) = message.
Proof.
  unfold PyStr.split_sep. split; [|split].
  - destruct (split_on_cons LF message EmptyString) as (piece & rest & E).
    now rewrite E.
  - now apply split_on_no_sep.
  - apply join_split_on.
Qed.
